(** * ithotlist-api: query construction, upload validation and request handlers

    A shallow embedding of the Express/Mongoose back end in
    [src/routes/*.js], [src/config/upload.js] and [src/models/*.js].

    Conventions of the embedding:
    - a JavaScript string is a [string]: a sequence of 8-bit code units
      (the Latin-1 range of UTF-16);
    - a JavaScript number is an integer [Z] (or [NaN]); dates are
      milliseconds since the epoch, [N];
    - [req.query], [req.body] and the Mongo filter object are [gmap string _];
    - a collection is the list of its documents in natural (insertion) order;
    - every [await] of a handler is one atomic operation against the
      document store or the file system; [fs.unlink(path, callback)] is an
      operation at the place where the handler issues it;
    - console output and the pagination of GET /jobs are left out. *)

From Stdlib Require Import ZArith NArith Ascii String List Bool Lia.
From stdpp Require Import base tactics option list strings gmap sets pretty relations.
From stdpp Require Import sorting.

Local Open Scope string_scope.
Set Warnings "-register-all".

(** ** JavaScript strings *)

Module JsString.

(** [WhiteSpace] and [LineTerminator] of ECMAScript, as far as they lie in
    the 8-bit range: TAB, LF, VT, FF, CR, SP, NBSP. *)
Definition is_white_space (c : ascii) : bool :=
  let n := N_of_ascii c in
  ((9 <=? n) && (n <=? 13))%N || (n =? 32)%N || (n =? 160)%N.

(** [String.prototype.trimStart]. *)
Fixpoint trimStart (s : string) : string :=
  match s with
  | EmptyString => EmptyString
  | String c s' => if is_white_space c then trimStart s' else s
  end.

Definition is_empty (s : string) : bool :=
  match s with EmptyString => true | String _ _ => false end.

(** [String.prototype.trimEnd]. *)
Fixpoint trimEnd (s : string) : string :=
  match s with
  | EmptyString => EmptyString
  | String c s' =>
      let t := trimEnd s' in
      if is_white_space c && is_empty t then EmptyString else String c t
  end.

(** [String.prototype.trim]. *)
Definition trim (s : string) : string := trimEnd (trimStart s).

(** [s.split(sep)] for a one-character separator: never the empty list,
    [''.split(',')] is [['']]. *)
Fixpoint split (sep : ascii) (s : string) : list string :=
  match s with
  | EmptyString => [EmptyString]
  | String c s' =>
      if Ascii.eqb c sep then EmptyString :: split sep s'
      else match split sep s' with
           | [] => [String c EmptyString]
           | t :: ts => String c t :: ts
           end
  end.

(** [Boolean(s)] on a string: the empty string is the only falsy one. *)
Definition truthy (s : string) : bool := negb (is_empty s).

End JsString.

(** ** Tokenisation of comma-separated skills *)

(** [src/routes/candidates.js], POST /candidate/with-resume:
    [skills.split(',').map(skill => skill.trim()).filter(Boolean)]. *)
Definition create_skill_tokens (skills : string) : list string :=
  List.filter JsString.truthy (List.map JsString.trim (JsString.split "," skills)).

(** [src/routes/jobs.js], GET /jobs:
    [requiredSkills.split(',').map(skill => skill.trim())]. *)
Definition filter_skill_tokens (requiredSkills : string) : list string :=
  List.map JsString.trim (JsString.split "," requiredSkills).


(** ** JavaScript values, errors and responses *)

(** The values that travel through the handlers: JSON values of request
    bodies, [undefined], [NaN] and [Date] objects ([VDate None] is an
    Invalid Date). *)
Inductive jsval :=
| VUndef
| VNull
| VBool (b : bool)
| VNum (n : Z)
| VNaN
| VStr (s : string)
| VDate (t : option N)
| VArr (items : list jsval)
| VObj (fields : list (string * jsval)).

(** Property read [o.k] on a plain object; [undefined] when absent. *)
Fixpoint js_get (fields : list (string * jsval)) (k : string) : jsval :=
  match fields with
  | [] => VUndef
  | (k', v) :: rest => if String.eqb k' k then v else js_get rest k
  end.

(** Read along a dotted path; a non-object on the way yields [undefined]. *)
Fixpoint js_get_path (v : jsval) (path : list string) : jsval :=
  match path with
  | [] => v
  | k :: path' =>
      match v with
      | VObj fields => js_get_path (js_get fields k) path'
      | _ => VUndef
      end
  end.

(** [Boolean(v)]. *)
Definition js_truthy (v : jsval) : bool :=
  match v with
  | VUndef | VNull | VNaN => false
  | VBool b => b
  | VNum n => negb (n =? 0)%Z
  | VStr s => JsString.truthy s
  | VDate _ | VArr _ | VObj _ => true
  end.

(** An [Error] object: [name], [message] and the optional [status] that
    Express's default error handler looks at. *)
Record Error := mkError {
  err_name : string;
  err_message : string;
  err_status : option N
}.

Definition TypeError (msg : string) : Error := mkError "TypeError" msg None.
Definition SyntaxError (msg : string) : Error := mkError "SyntaxError" msg None.
Definition CastError (msg : string) : Error := mkError "CastError" msg None.
Definition ValidationError (msg : string) : Error := mkError "ValidationError" msg None.
Definition MongoServerError (msg : string) : Error := mkError "MongoServerError" msg None.
Definition MongoNetworkError (msg : string) : Error := mkError "MongoNetworkError" msg None.
Definition MulterError (msg : string) : Error := mkError "MulterError" msg None.

(** What [res.status(s).json(b)] sends. *)
Record Response := mkResponse {
  status : N;
  body : jsval
}.

(** ** The platform under the application

    The JavaScript engine, Mongoose's casting, the store's regular
    expression engine and the process environment are not part of the
    repository; the model is parametric in them. *)
Inductive SchemaType := TString | TNumber | TBoolean | TDate | TObjectId | TArray (elem : SchemaType).

Class Runtime := {
  (** does [new RegExp(pattern, flags)] / [{$regex: pattern}] compile *)
  regex_valid : string -> bool;
  (** [new RegExp(pattern, flags).test(subject)] *)
  regex_test : string -> string -> string -> bool;
  (** does Mongoose cast the string to an ObjectId *)
  objectid_valid : string -> bool;
  (** Mongoose's cast of a defined, non-null value to a schema type;
      [None] is a CastError *)
  schema_cast : SchemaType -> jsval -> option jsval;
  (** [Number(v)] *)
  js_Number : jsval -> jsval;
  (** the time value of [new Date(v)]; [None] for an Invalid Date *)
  js_new_Date : jsval -> option N;
  (** [process.env.NODE_ENV] *)
  NODE_ENV : option string
}.

(** ** Record schemas ([src/models/*.js]) *)

Inductive Default := NoDefault | DefaultValue (v : jsval) | DefaultNow.

(** One schema path: its dotted name, type and the options the source
    gives it. *)
Record PathDecl := mkPath {
  path : list string;
  ptype : SchemaType;
  required : bool;
  default : Default;
  enum : option (list string);
  unique : bool
}.

Definition path_key (p : list string) : string := String.concat "." p.

(** A Mongoose model: its schema paths and whether the schema registers
    the [pre('save')] hook that sets [this.updatedAt = new Date()]. *)
Inductive Collection := Jobs | Candidates | Hotlists.

Record Model := mkModel {
  collection : Collection;
  schema : list PathDecl;
  pre_save_sets_updatedAt : bool
}.

Definition opt (p : list string) (t : SchemaType) : PathDecl := mkPath p t false NoDefault None false.
Definition req (p : list string) (t : SchemaType) : PathDecl := mkPath p t true NoDefault None false.
Definition dflt (p : list string) (t : SchemaType) (v : jsval) : PathDecl :=
  mkPath p t false (DefaultValue v) None false.

(** [src/models/Job.js]: [companySchema] and [salarySchema] are inlined as
    the paths [company.*] and [salary.*]. *)
Definition jobSchema : list PathDecl := [
  req ["title"] TString;
  req ["company"; "name"] TString;
  opt ["company"; "website"] TString;
  opt ["company"; "logo"] TString;
  req ["description"] TString;
  dflt ["requirements"] (TArray TString) (VArr []);
  dflt ["responsibilities"] (TArray TString) (VArr []);
  mkPath ["jobType"] TString true NoDefault
    (Some ["Full-time"; "Part-time"; "Contract"; "Freelance"]) false;
  mkPath ["experienceLevel"] TString true NoDefault
    (Some ["Entry Level"; "Mid Level"; "Senior Level"; "Lead"; "Manager"]) false;
  req ["location"] TString;
  dflt ["remote"] TBoolean (VBool false);
  req ["salary"; "min"] TNumber;
  req ["salary"; "max"] TNumber;
  dflt ["salary"; "currency"] TString (VStr "USD");
  mkPath ["salary"; "period"] TString false (DefaultValue (VStr "yearly"))
    (Some ["yearly"; "monthly"; "weekly"; "hourly"]) false;
  req ["primaryTechnology"] TString;
  dflt ["requiredSkills"] (TArray TString) (VArr []);
  dflt ["benefits"] (TArray TString) (VArr []);
  mkPath ["status"] TString false (DefaultValue (VStr "draft"))
    (Some ["active"; "closed"; "draft"]) false;
  req ["applicationDeadline"] TDate;
  mkPath ["postedDate"] TDate false DefaultNow None false;
  mkPath ["updatedAt"] TDate false DefaultNow None false;
  dflt ["views"] TNumber (VNum 0);
  dflt ["applications"] TNumber (VNum 0)
].

(** [src/models/Candidate.js]. *)
Definition candidateSchema : list PathDecl := [
  req ["name"] TString;
  mkPath ["email"] TString true NoDefault None true;
  mkPath ["yearsOfExp"] TNumber true (DefaultValue (VNum 0)) None false;
  mkPath ["technology"] TString true (DefaultValue (VStr "Not Specified")) None false;
  dflt ["skills"] (TArray TString) (VArr []);
  dflt ["experience"] TNumber (VNum 0);
  dflt ["avatar"] TString (VStr "https://example.com/default-avatar.jpg");
  dflt ["resumeFile"; "filename"] TString VNull;
  dflt ["resumeFile"; "path"] TString VNull;
  dflt ["resumeFile"; "mimetype"] TString VNull;
  mkPath ["status"] TString false (DefaultValue (VStr "pending"))
    (Some ["active"; "inactive"; "pending"]) false;
  mkPath ["createdAt"] TDate false DefaultNow None false;
  mkPath ["updatedAt"] TDate false DefaultNow None false
].

(** [src/models/Hotlist.js]: no [updatedAt] path and no [pre('save')] hook;
    a Mongoose array path defaults to the empty array. *)
Definition hotlistSchema : list PathDecl := [
  req ["name"] TString;
  opt ["description"] TString;
  dflt ["candidates"] (TArray TObjectId) (VArr []);
  mkPath ["createdAt"] TDate false DefaultNow None false
].

Definition Job : Model := mkModel Jobs jobSchema true.
Definition Candidate : Model := mkModel Candidates candidateSchema true.
Definition Hotlist : Model := mkModel Hotlists hotlistSchema false.

(** ** Documents and schema validation *)

(** A stored document maps a dotted schema path to its value; ["_id"] holds
    the identifier and ["__v"] the version key. *)
Abbreviation Doc := (gmap string jsval).

(** The documents of the three collections and the files present in the
    uploads directory. *)
Record World := mkWorld {
  jobs : list Doc;
  candidates : list Doc;
  hotlists : list Doc;
  uploads : gset string
}.

Definition docs_of (c : Collection) (w : World) : list Doc :=
  match c with Jobs => jobs w | Candidates => candidates w | Hotlists => hotlists w end.

Definition set_docs (c : Collection) (l : list Doc) (w : World) : World :=
  match c with
  | Jobs => mkWorld l (candidates w) (hotlists w) (uploads w)
  | Candidates => mkWorld (jobs w) l (hotlists w) (uploads w)
  | Hotlists => mkWorld (jobs w) (candidates w) l (uploads w)
  end.

Definition set_uploads (u : gset string) (w : World) : World :=
  mkWorld (jobs w) (candidates w) (hotlists w) u.

(** What an operation reads from its surroundings when it runs: the clock,
    whether the store is reachable, and the ObjectId generated for a new
    document. *)
Record Env := mkEnv {
  now : N;
  db_up : bool;
  new_id : string
}.

Definition str_at (k : string) (d : Doc) : option string :=
  match d !! k with Some (VStr s) => Some s | _ => None end.

(** Identifiers are compared as ObjectIds, not as strings. The driver
    reads a string of 24 hexadecimal digits without regard to the case of
    A-F, and a string of 12 characters as the 12 bytes themselves. [oid]
    gives the lower-case hexadecimal form of the ObjectId. *)
Definition hex_lower (c : ascii) : ascii :=
  let n := N_of_ascii c in
  if ((65 <=? n) && (n <=? 70))%N then ascii_of_N (n + 32) else c.

Definition hex_digit (n : N) : ascii :=
  ascii_of_N (if (n <? 10)%N then 48 + n else 87 + n).

Fixpoint hex_lower_all (s : string) : string :=
  match s with
  | EmptyString => EmptyString
  | String c s' => String (hex_lower c) (hex_lower_all s')
  end.

Fixpoint hex_of_bytes (s : string) : string :=
  match s with
  | EmptyString => EmptyString
  | String c s' =>
      String (hex_digit (N_of_ascii c / 16)) (String (hex_digit (N_of_ascii c mod 16))
        (hex_of_bytes s'))
  end.

Definition oid (s : string) : string :=
  if (String.length s =? 12)%nat then hex_of_bytes s else hex_lower_all s.

Definition same_id (a b : string) : bool := String.eqb (oid a) (oid b).

Definition has_id (id : string) (d : Doc) : bool :=
  match str_at "_id" d with Some s => same_id s id | None => false end.

Definition find_by_id (id : string) (l : list Doc) : option Doc := List.find (has_id id) l.

(** Replace the first document with the given id. *)
Fixpoint replace_by_id (id : string) (d' : Doc) (l : list Doc) : list Doc :=
  match l with
  | [] => []
  | d :: rest => if has_id id d then d' :: rest else d :: replace_by_id id d' rest
  end.

Section Validation.
Context `{Runtime}.

Definition apply_default (t : N) (d : Default) (raw : jsval) : jsval :=
  match raw with
  | VUndef =>
      match d with
      | NoDefault => VUndef
      | DefaultValue v => v
      | DefaultNow => VDate (Some t)
      end
  | _ => raw
  end.

(** Mongoose's enum validator lets [null]/[undefined] through. *)
Definition enum_ok (e : option (list string)) (v : jsval) : bool :=
  match e, v with
  | Some values, VStr s => existsb (String.eqb s) values
  | _, _ => true
  end.

(** The [required] validator after casting: a required string must be
    non-empty. *)
Definition required_ok (d : PathDecl) (v : jsval) : bool :=
  match v with
  | VUndef | VNull => negb (required d)
  | VStr s => negb (required d) || JsString.truthy s
  | _ => true
  end.

(** Default, cast and validate one path of [new Model(init)]: the value
    to store ([None]: the path stays unset) or the error. *)
Definition validate_path (t : N) (init : jsval) (d : PathDecl) : Error + option jsval :=
  let key := path_key (path d) in
  match apply_default t (default d) (js_get_path init (path d)) with
  | VUndef =>
      if required d then inl (ValidationError ("Path `" ++ key ++ "` is required."))
      else inr None
  | VNull =>
      if required d then inl (ValidationError ("Path `" ++ key ++ "` is required."))
      else inr (Some VNull)
  | v =>
      match schema_cast (ptype d) v with
      | None => inl (ValidationError ("Cast failed for path `" ++ key ++ "`"))
      | Some v' =>
          if negb (required_ok d v')
          then inl (ValidationError ("Path `" ++ key ++ "` is required."))
          else if enum_ok (enum d) v' then inr (Some v')
          else inl (ValidationError ("not a valid enum value for path `" ++ key ++ "`."))
      end
  end.

Fixpoint validate_paths (t : N) (init : jsval) (ds : list PathDecl) : Error + Doc :=
  match ds with
  | [] => inr ∅
  | d :: ds' =>
      match validate_path t init d with
      | inl e => inl e
      | inr ov =>
          match validate_paths t init ds' with
          | inl e => inl e
          | inr doc =>
              inr (match ov with
                   | Some v => <[path_key (path d) := v]> doc
                   | None => doc
                   end)
          end
      end
  end.

(** The store's unique index on the paths declared [unique: true]. *)
Definition duplicate_key (m : Model) (doc : Doc) (existing : list Doc) : bool :=
  existsb (fun d : PathDecl =>
    unique d &&
    existsb (fun other : Doc =>
      match str_at (path_key (path d)) doc, str_at (path_key (path d)) other with
      | Some a, Some b => String.eqb a b
      | _, _ => false
      end) existing) (schema m).

(** [jobSchema.pre('save', ...)] / [candidateSchema.pre('save', ...)]:
    [this.updatedAt = new Date()]. *)
Definition pre_save (m : Model) (t : N) (doc : Doc) : Doc :=
  if pre_save_sets_updatedAt m then <["updatedAt" := VDate (Some t)]> doc else doc.

(** [await new Model(init).save()] for a new document: validation, then
    the [pre('save')] hook, then the insert. *)
Definition model_save (e : Env) (m : Model) (init : jsval) (w : World)
  : World * (Error + Doc) :=
  match validate_paths (now e) init (schema m) with
  | inl err => (w, inl err)
  | inr doc0 =>
      let doc := pre_save m (now e) (<["_id" := VStr (new_id e)]> (<["__v" := VNum 0]> doc0)) in
      let existing := docs_of (collection m) w in
      if negb (db_up e) then (w, inl (MongoNetworkError "connection failed"))
      else if duplicate_key m doc existing || bool_decide (is_Some (find_by_id (new_id e) existing))
      then (w, inl (MongoServerError "E11000 duplicate key error"))
      else (set_docs (collection m) (existing ++ [doc]) w, inr doc)
  end.
End Validation.

(** ** Filter documents and their evaluation by the store *)

(** A compiled [RegExp] object. *)
Record RegExp := mkRegExp {
  source : string;
  flags : string
}.

(** The conditions the routes put on one path. *)
Inductive FieldCond :=
| EqStr (s : string)                      (* { path: 'text' } *)
| EqBool (b : bool)                       (* { path: true } *)
| Regex (pattern options : string)        (* { path: { $regex, $options } } *)
| InRegExps (res : list RegExp).          (* { path: { $in: [/re/i, ...] } } *)

(** A top-level entry of a filter object: a condition on the path named by
    the key, or the [$or] list of one-path clauses. *)
Inductive Cond :=
| Field (c : FieldCond)
| Or (clauses : list (string * FieldCond)).

Abbreviation Query := (gmap string Cond).

(** The strings a condition is tested against: the value itself, or the
    elements of an array value. *)
Definition strings_of (v : option jsval) : list string :=
  match v with
  | Some (VStr s) => [s]
  | Some (VArr items) =>
      List.flat_map (fun x => match x with VStr s => [s] | _ => [] end) items
  | _ => []
  end.

Definition bools_of (v : option jsval) : list bool :=
  match v with
  | Some (VBool b) => [b]
  | Some (VArr items) =>
      List.flat_map (fun x => match x with VBool b => [b] | _ => [] end) items
  | _ => []
  end.

Section Matching.
Context `{Runtime}.

Definition field_holds (c : FieldCond) (v : option jsval) : bool :=
  match c with
  | EqStr s => existsb (String.eqb s) (strings_of v)
  | EqBool b => existsb (Bool.eqb b) (bools_of v)
  | Regex pattern options => existsb (regex_test pattern options) (strings_of v)
  | InRegExps res =>
      existsb (fun r => existsb (regex_test (source r) (flags r)) (strings_of v)) res
  end.

Definition cond_holds (d : Doc) (k : string) (c : Cond) : bool :=
  match c with
  | Field f => field_holds f (d !! k)
  | Or clauses => existsb (fun kc : string * FieldCond => field_holds kc.2 (d !! kc.1)) clauses
  end.

(** A filter object is the conjunction of its entries. *)
Definition matches (q : Query) (d : Doc) : bool :=
  bool_decide (map_Forall (fun k c => cond_holds d k c = true) q).

Definition field_valid (c : FieldCond) : bool :=
  match c with
  | Regex pattern _ => regex_valid pattern
  | _ => true
  end.

Definition cond_valid (c : Cond) : bool :=
  match c with
  | Field f => field_valid f
  | Or clauses => forallb (fun kc : string * FieldCond => field_valid kc.2) clauses
  end.

(** The store rejects a filter whose [$regex] does not compile. *)
Definition query_valid (q : Query) : bool :=
  bool_decide (map_Forall (fun _ c => cond_valid c = true) q).
End Matching.

(** [.sort({ path: -1 })], [.limit(n)] and [.select('-path ...')] of a query. *)
Record FindOptions := mkFindOptions {
  sort_desc : option string;
  limit : option nat;
  select_exclude : list string
}.

(** Is [key] the path [p] or a path below it. *)
Definition under (p key : string) : bool :=
  String.eqb key p || String.prefix (p ++ ".") key.

Definition excluded (paths : list string) (key : string) : bool :=
  existsb (fun p => under p key) paths.

(** Projection [.select('-p1 -p2')]. *)
Definition exclude (paths : list string) (d : Doc) : Doc :=
  filter (fun kv : string * jsval => excluded paths kv.1 = false) d.

(** Sort key of a date path; a document without the path sorts last in a
    descending sort. *)
Definition date_key (k : string) (d : Doc) : N :=
  match d !! k with
  | Some (VDate (Some t)) => N.succ t
  | _ => 0%N
  end.

(** Stable insertion into a list sorted by descending key. *)
Fixpoint insert_desc {A} (key : A -> N) (x : A) (l : list A) : list A :=
  match l with
  | [] => [x]
  | y :: l' => if (key x <? key y)%N then y :: insert_desc key x l' else x :: l
  end.

Definition sort_desc_by {A} (key : A -> N) (l : list A) : list A :=
  List.fold_right (insert_desc key) [] l.

(** [$inc] on one path: a missing path is set to the amount, a non-numeric
    value is rejected by the store. *)
Definition inc_path (k : string) (amount : Z) (d : Doc) : option Doc :=
  match d !! k with
  | None => Some (<[k := VNum amount]> d)
  | Some (VNum n) => Some (<[k := VNum (n + amount)]> d)
  | Some _ => None
  end.

(** [.populate(path)]: the referenced documents that exist, in the order of
    the stored identifiers. *)
Definition populate (refs : list Doc) (k : string) (d : Doc) : list Doc :=
  omap (fun id => find_by_id id refs) (strings_of (d !! k)).

(** ** Resume upload ([src/config/upload.js]) *)

Module Upload.

(** One file part of a multipart request. *)
Record FilePart := mkFilePart {
  fieldname : string;
  originalname : string;
  mimetype : string;
  size : N
}.

(** [req.file] after a successful upload. *)
Record File := mkFile {
  filename : string;
  path : string;
  file_mimetype : string;
  file_size : N
}.

Definition uploadDir : string := "uploads".

(** [filename: cb(null, Date.now() + '-' + file.originalname)]. *)
Definition storage_filename (t : N) (file : FilePart) : string :=
  pretty t ++ "-" ++ originalname file.

(** [fileFilter]: [inr true] is [cb(null, true)], [inl e] is [cb(e, false)]. *)
Definition fileFilter (file : FilePart) : Error + bool :=
  if String.eqb (fieldname file) "resumeFile" then
    if String.eqb (mimetype file) "application/pdf"
       || String.eqb (mimetype file) "application/msword"
       || String.eqb (mimetype file)
            "application/vnd.openxmlformats-officedocument.wordprocessingml.document"
    then inr true
    else inl (mkError "Error" "Invalid file type! Only PDF and DOC files are allowed." None)
  else inr true.

(** [limits: { fileSize: 5 * 1024 * 1024 }]. *)
Definition limits_fileSize : N := 5 * 1024 * 1024.

(** [upload.single(field)] on a request with at most one file part: Multer
    refuses a file under another field name, asks [fileFilter], stores an
    accepted file as [uploadDir/filename] and removes it again when its size
    reaches [limits.fileSize]: a file of exactly that many bytes is already
    reported as too large. *)
Definition single (e : Env) (field : string) (part : option FilePart) (w : World)
  : World * (Error + option File) :=
  match part with
  | None => (w, inr None)
  | Some p =>
      if negb (String.eqb (fieldname p) field) then (w, inl (MulterError "Unexpected field"))
      else match fileFilter p with
           | inl err => (w, inl err)
           | inr false => (w, inr None)
           | inr true =>
               if (limits_fileSize <=? size p)%N then (w, inl (MulterError "File too large"))
               else
                 let name := storage_filename (now e) p in
                 let file := mkFile name (uploadDir ++ "/" ++ name) (mimetype p) (size p) in
                 (set_uploads ({[path file]} ∪ uploads w) w, inr (Some file))
           end
  end.

(** [fs.unlink(path, callback)]: the file is removed; a missing file is
    reported to the callback. *)
Definition unlink (p : string) (w : World) : World * option Error :=
  if bool_decide (p ∈ uploads w) then (set_uploads (uploads w ∖ {[p]}) w, None)
  else (w, Some (mkError "Error" "ENOENT: no such file or directory" None)).

End Upload.

(** ** Operations, programs and their execution *)

(** What a handler can [await] (or hand to a callback): each is one
    operation against the store or the file system. *)
Inductive Op : Type -> Type :=
| Model_save (m : Model) (init : jsval) : Op (Error + Doc)
| Model_findById (m : Model) (id : string) : Op (Error + option Doc)
| Model_findById_populate (m : Model) (id k : string) (ref : Model)
    : Op (Error + option (Doc * list Doc))
| Model_findByIdAndUpdate_inc (m : Model) (id k : string) (amount : Z) (select : list string)
    : Op (Error + option Doc)
| Model_find (m : Model) (q : Query) (o : FindOptions) : Op (Error + list Doc)
| Upload_single (field : string) (part : option Upload.FilePart)
    : Op (Error + option Upload.File)
| Fs_unlink (p : string) : Op (option Error).

(** A handler: it returns its response or performs an operation and goes on
    with the result. *)
Inductive Prog (R : Type) : Type :=
| Ret (r : R)
| Await {X : Type} (op : Op X) (k : X -> Prog R).

Arguments Ret {R} r.
Arguments Await {R X} op k.

Section Execution.
Context `{Runtime}.

(** Every store operation first casts the identifier (in the client),
    then needs the connection. *)
Definition with_store {X} (e : Env) (w : World) (k : World * (Error + X))
  : World * (Error + X) :=
  if db_up e then k else (w, inl (MongoNetworkError "connection failed")).

Definition with_id {X} (id : string) (w : World) (k : World * (Error + X))
  : World * (Error + X) :=
  if objectid_valid id then k
  else (w, inl (CastError ("Cast to ObjectId failed for value " ++ id))).

Definition model_findById (e : Env) (m : Model) (id : string) (w : World)
  : World * (Error + option Doc) :=
  with_id id w (with_store e w (w, inr (find_by_id id (docs_of (collection m) w)))).

Definition model_findById_populate (e : Env) (m : Model) (id k : string) (ref : Model)
  (w : World) : World * (Error + option (Doc * list Doc)) :=
  with_id id w (with_store e w
    (w, inr (match find_by_id id (docs_of (collection m) w) with
             | None => None
             | Some d => Some (d, populate (docs_of (collection ref) w) k d)
             end))).

(** [Model.findByIdAndUpdate(id, { $inc: { k: amount } }, { new: true })
    .select(...)]: one find-and-modify command; the updated document is
    returned. *)
Definition model_findByIdAndUpdate_inc (e : Env) (m : Model) (id k : string) (amount : Z)
  (select : list string) (w : World) : World * (Error + option Doc) :=
  with_id id w (with_store e w
    (let docs := docs_of (collection m) w in
     match find_by_id id docs with
     | None => (w, inr None)
     | Some d =>
         match inc_path k amount d with
         | None => (w, inl (MongoServerError "Cannot apply $inc to a value of non-numeric type"))
         | Some d' =>
             (set_docs (collection m) (replace_by_id id d' docs) w,
              inr (Some (exclude select d')))
         end
     end)).

(** [Model.find(q)] with its sort, limit and projection. *)
Definition model_find (e : Env) (m : Model) (q : Query) (o : FindOptions) (w : World)
  : World * (Error + list Doc) :=
  with_store e w
    (if negb (query_valid q) then (w, inl (MongoServerError "Regular expression is invalid"))
     else
       let matched := List.filter (matches q) (docs_of (collection m) w) in
       let sorted := match sort_desc o with
                     | Some k => sort_desc_by (date_key k) matched
                     | None => matched
                     end in
       let limited := match limit o with
                      | Some n => take n sorted
                      | None => sorted
                      end in
       (w, inr (List.map (exclude (select_exclude o)) limited))).

Definition exec (e : Env) {X} (op : Op X) (w : World) : World * X :=
  match op in Op X return World * X with
  | Model_save m init => model_save e m init w
  | Model_findById m id => model_findById e m id w
  | Model_findById_populate m id k ref => model_findById_populate e m id k ref w
  | Model_findByIdAndUpdate_inc m id k amount select =>
      model_findByIdAndUpdate_inc e m id k amount select w
  | Model_find m q o => model_find e m q o w
  | Upload_single field part => Upload.single e field part w
  | Fs_unlink p => Upload.unlink p w
  end.

(** One request on its own: the [i]-th operation runs in surroundings
    [envs i]. *)
Fixpoint run {R} (envs : nat -> Env) (p : Prog R) (w : World) : World * R :=
  match p with
  | Ret r => (w, r)
  | Await op k =>
      let wx := exec (envs 0%nat) op w in
      run (fun i => envs (S i)) (k wx.2) wx.1
  end.

(** One operation of a request: the operation it waits on is executed
    against the world and the request goes on with the result. *)
Definition advance {R} (e : Env) (w : World) (p : Prog R) : World * Prog R :=
  match p with
  | Ret r => (w, Ret r)
  | Await op k => let wx := exec e op w in (wx.1, k wx.2)
  end.

Definition finished {R} (p : Prog R) : Prop :=
  match p with Ret _ => True | Await _ _ => False end.

(** Requests in flight together: any request that still waits on an
    operation may have it executed next, in any surroundings. Operations of
    different requests interleave; one operation is indivisible. *)
Inductive step {R} : World * list (Prog R) -> World * list (Prog R) -> Prop :=
| step_at (e : Env) (i : nat) (p : Prog R) (w : World) (pool : list (Prog R)) :
    pool !! i = Some p ->
    ~ finished p ->
    step (w, pool) ((advance e w p).1, <[i := (advance e w p).2]> pool).

(** The interleaving that advances the requests in the given order. *)
Fixpoint schedule {R} (order : list (Env * nat)) (s : World * list (Prog R))
  : World * list (Prog R) :=
  match order with
  | [] => s
  | (e, i) :: rest =>
      match s.2 !! i with
      | Some p => schedule rest ((advance e s.1 p).1, <[i := (advance e s.1 p).2]> s.2)
      | None => schedule rest s
      end
  end.
End Execution.

(** ** Request handlers ([src/routes/*.js]) *)

(** [res.json] of a document. *)
Definition doc_json (d : Doc) : jsval := VObj (map_to_list d).

Definition body_get (body : gmap string jsval) (k : string) : jsval :=
  match body !! k with Some v => v | None => VUndef end.

(** [Array.isArray(v) ? v : v.split(',').map(x => x.trim())]: anything but an
    array or a string has no [split] to call. *)
Definition array_or_split (v : jsval) : Error + jsval :=
  match v with
  | VArr _ => inr v
  | VStr s => inr (VArr (List.map VStr (List.map JsString.trim (JsString.split "," s))))
  | VUndef => inl (TypeError "Cannot read properties of undefined (reading 'split')")
  | VNull => inl (TypeError "Cannot read properties of null (reading 'split')")
  | _ => inl (TypeError "split is not a function")
  end.

Definition bindE {A B} (x : Error + A) (f : A -> Error + B) : Error + B :=
  match x with inl e => inl e | inr a => f a end.

Notation "'try' x <- e1 ; e2" := (bindE e1 (fun x => e2))
  (at level 10, x name, e1 at level 100, e2 at level 200).

Section Handlers.
Context `{Runtime}.

(** [process.env.NODE_ENV === 'development' ? err.message : undefined]. *)
Definition dev_detail (err : Error) : jsval :=
  match NODE_ENV with
  | Some env => if String.eqb env "development" then VStr (err_message err) else VUndef
  | None => VUndef
  end.

Definition message_only (s : N) (msg : string) : Response :=
  mkResponse s (VObj [("message", VStr msg)]).

Definition failure (s : N) (msg : string) : Response :=
  mkResponse s (VObj [("success", VBool false); ("message", VStr msg)]).

Definition failure_detail (s : N) (msg : string) (err : Error) : Response :=
  mkResponse s (VObj [("success", VBool false); ("message", VStr msg);
                      ("error", dev_detail err)]).

(** *** GET /jobs: the filter object built from [req.query] *)

Definition RegExp_new (pattern fl : string) : Error + RegExp :=
  if regex_valid pattern then inr (mkRegExp pattern fl)
  else inl (SyntaxError ("Invalid regular expression: /" ++ pattern ++ "/"))%string.

Fixpoint RegExp_all (patterns : list string) (fl : string) : Error + list RegExp :=
  match patterns with
  | [] => inr []
  | p :: ps =>
      try r <- RegExp_new p fl;
      try rs <- RegExp_all ps fl;
      inr (r :: rs)
  end.

(** [if (param) query[key] = cond(param)]: only a non-empty string counts. *)
Definition if_truthy (param : option string) (key : string) (cond : string -> Cond)
  (q : Query) : Query :=
  match param with
  | Some v => if JsString.truthy v then <[key := cond v]> q else q
  | None => q
  end.

(** [if (param !== undefined) query[key] = cond(param)]. *)
Definition if_defined (param : option string) (key : string) (cond : string -> Cond)
  (q : Query) : Query :=
  match param with
  | Some v => <[key := cond v]> q
  | None => q
  end.

Definition equals (v : string) : Cond := Field (EqStr v).
Definition regex_i (v : string) : Cond := Field (Regex v "i").
Definition search_clause (search : string) : Cond :=
  Or [("title", Regex search "i");
      ("description", Regex search "i");
      ("company.name", Regex search "i")].

(** The filters other than [requiredSkills], in the order of the source. *)
Definition build_jobs_filters (query : gmap string string) : Query :=
  let q := (∅ : Query) in
  let q := if_truthy (query !! "status") "status" equals q in
  let q := if_truthy (query !! "jobType") "jobType" equals q in
  let q := if_truthy (query !! "experienceLevel") "experienceLevel" equals q in
  let q := if_truthy (query !! "primaryTechnology") "primaryTechnology" equals q in
  let q := if_defined (query !! "remote") "remote"
             (fun remote => Field (EqBool (String.eqb remote "true"))) q in
  let q := if_truthy (query !! "location") "location" regex_i q in
  if_truthy (query !! "search") "$or" search_clause q.

(** The whole filter object; [new RegExp(skill, 'i')] may throw. *)
Definition build_jobs_query (query : gmap string string) : Error + Query :=
  let q := build_jobs_filters query in
  match query !! "requiredSkills" with
  | Some requiredSkills =>
      if JsString.truthy requiredSkills then
        try res <- RegExp_all (filter_skill_tokens requiredSkills) "i";
        inr (<["requiredSkills" := Field (InRegExps res)]> q)
      else inr q
  | None => inr q
  end.

(** *** GET /jobs/:id *)
Definition get_job (id : string) : Prog Response :=
  Await (Model_findByIdAndUpdate_inc Job id "views" 1 ["__v"])
    (fun r => Ret
      match r with
      | inr None => failure 404 "Job not found"
      | inr (Some job) =>
          mkResponse 200 (VObj [("success", VBool true); ("data", doc_json job)])
      | inl err =>
          if String.eqb (err_name err) "CastError" then failure 400 "Invalid job ID format"
          else failure_detail 500 "Error fetching job details" err
      end).

(** *** POST /jobs/:id/apply *)
Definition apply_job (id : string) : Prog Response :=
  Await (Model_findByIdAndUpdate_inc Job id "applications" 1 ["__v"])
    (fun r => Ret
      match r with
      | inr None => message_only 404 "Job not found"
      | inr (Some job) => mkResponse 200 (doc_json job)
      | inl err => message_only 500 (err_message err)
      end).

(** *** POST /jobs *)
Definition post_jobs (body : gmap string jsval) : Prog Response :=
  let get := body_get body in
  let init :=
    try requirements <- array_or_split (get "requirements");
    try responsibilities <- array_or_split (get "responsibilities");
    try requiredSkills <- array_or_split (get "requiredSkills");
    try benefits <- array_or_split (get "benefits");
    inr (VObj [("title", get "title");
               ("company", get "company");
               ("description", get "description");
               ("requirements", requirements);
               ("responsibilities", responsibilities);
               ("jobType", get "jobType");
               ("experienceLevel", get "experienceLevel");
               ("location", get "location");
               ("remote", get "remote");
               ("salary", get "salary");
               ("primaryTechnology", get "primaryTechnology");
               ("requiredSkills", requiredSkills);
               ("benefits", benefits);
               ("status", get "status");
               ("applicationDeadline", VDate (js_new_Date (get "applicationDeadline")))]) in
  match init with
  | inl err => Ret (message_only 400 (err_message err))
  | inr init =>
      Await (Model_save Job init)
        (fun r => Ret
          match r with
          | inr newJob => mkResponse 201 (doc_json newJob)
          | inl err => message_only 400 (err_message err)
          end)
  end.

(** *** GET /candidates/search *)
Definition candidate_search_query (q : string) : Query :=
  {["$or" := Or [("name", Regex q "i"); ("email", Regex q "i");
                 ("technology", Regex q "i"); ("skills", Regex q "i")]]}.

(** [.limit(10).select('-resumeFile').sort({ updatedAt: -1 })]. *)
Definition candidate_search_options : FindOptions :=
  mkFindOptions (Some "updatedAt") (Some 10%nat) ["resumeFile"].

Definition search_candidates (query : gmap string string) : Prog Response :=
  match query !! "q" with
  | Some q =>
      if JsString.truthy q then
        Await (Model_find Candidate (candidate_search_query q) candidate_search_options)
          (fun r => Ret
            match r with
            | inr found =>
                mkResponse 200 (VObj [("success", VBool true);
                                      ("data", VArr (List.map doc_json found))])
            | inl err => failure_detail 500 "Error searching candidates" err
            end)
      else Ret (failure 400 "Search query is required")
  | None => Ret (failure 400 "Search query is required")
  end.

(** *** GET /candidates/:id *)
Definition get_candidate (id : string) : Prog Response :=
  Await (Model_findById Candidate id)
    (fun r => Ret
      match r with
      | inr None => message_only 404 "Candidate not found"
      | inr (Some candidate) => mkResponse 200 (doc_json candidate)
      | inl err => message_only 500 (err_message err)
      end).

(** *** GET /hotlist/:id *)
Definition get_hotlist (id : string) : Prog Response :=
  Await (Model_findById_populate Hotlist id "candidates" Candidate)
    (fun r => Ret
      match r with
      | inr None => message_only 404 "Hotlist not found"
      | inr (Some (hotlist, members)) =>
          mkResponse 200
            (doc_json (<["candidates" := VArr (List.map doc_json members)]> hotlist))
      | inl err => message_only 500 (err_message err)
      end).

(** *** POST /candidate/with-resume *)

(** The object given to [new Candidate(...)]; [file] is [req.file]. *)
Definition candidate_init (body : gmap string jsval) (file : option Upload.File) : jsval :=
  let get := body_get body in
  let skills := get "skills" in
  let skillsArray :=
    match skills with
    | VStr s => VArr (List.map VStr (create_skill_tokens s))
    | _ => if js_truthy skills then skills else VUndef
    end in
  let number_or_undefined v := if js_truthy v then js_Number v else VUndef in
  VObj [("name", get "name");
        ("email", get "email");
        ("yearsOfExp", number_or_undefined (get "yearsOfExp"));
        ("technology", get "technology");
        ("skills", skillsArray);
        ("experience", number_or_undefined (get "experience"));
        ("avatar", get "avatar");
        ("status", get "status");
        ("resumeFile",
         match file with
         | Some f => VObj [("filename", VStr (Upload.filename f));
                           ("path", VStr (Upload.path f));
                           ("mimetype", VStr (Upload.file_mimetype f))]
         | None => VUndef
         end)].

(** The handler behind the upload middleware: on a failed save the
    uploaded file is unlinked, then the 400 is sent. *)
Definition candidate_with_resume (body : gmap string jsval) (file : option Upload.File)
  : Prog Response :=
  Await (Model_save Candidate (candidate_init body file))
    (fun r =>
      match r with
      | inr newCandidate => Ret (mkResponse 201 (doc_json newCandidate))
      | inl err =>
          match file with
          | Some f =>
              Await (Fs_unlink (Upload.path f))
                (fun _ => Ret (message_only 400 (err_message err)))
          | None => Ret (message_only 400 (err_message err))
          end
      end).

(** Express's default error handler, reached through [next(err)] when no
    error-handling middleware is registered ([src/server.js] registers
    none): the status is [err.status] when that is a 4xx/5xx code and 500
    otherwise. The page it sends is represented by the error message. *)
Definition express_default_error_handler (err : Error) : Response :=
  mkResponse
    (match err_status err with
     | Some s => if ((400 <=? s) && (s <? 600))%N then s else 500%N
     | None => 500%N
     end)
    (VStr (err_message err)).

(** The route: [upload.single('resumeFile')], then the handler. *)
Definition post_candidate_with_resume (body : gmap string jsval)
  (part : option Upload.FilePart) : Prog Response :=
  Await (Upload_single "resumeFile" part)
    (fun r =>
      match r with
      | inl err => Ret (express_default_error_handler err)
      | inr file => candidate_with_resume body file
      end).
End Handlers.

(** ** A reference platform

    A small concrete platform on which the model runs: patterns without
    metacharacters only (a literal, case-insensitive substring test),
    24-digit hexadecimal identifiers, and casts that accept a value of the
    declared type. *)
Module Reference.

Definition to_lower (c : ascii) : ascii :=
  let n := N_of_ascii c in
  if ((65 <=? n) && (n <=? 90))%N then ascii_of_N (n + 32) else c.

Fixpoint lower (s : string) : string :=
  match s with
  | EmptyString => EmptyString
  | String c s' => String (to_lower c) (lower s')
  end.

Fixpoint includes (needle hay : string) : bool :=
  String.prefix needle hay
  || match hay with
     | EmptyString => false
     | String _ hay' => includes needle hay'
     end.

Fixpoint all_chars (P : ascii -> bool) (s : string) : bool :=
  match s with
  | EmptyString => true
  | String c s' => P c && all_chars P s'
  end.

Definition is_meta (c : ascii) : bool :=
  existsb (Ascii.eqb c) (list_ascii_of_string "\^$.|?*+()[]{}").

Definition literal (pattern : string) : bool := all_chars (fun c => negb (is_meta c)) pattern.

Definition test (pattern fl subject : string) : bool :=
  if includes "i" fl then includes (lower pattern) (lower subject)
  else includes pattern subject.

Definition is_hex (c : ascii) : bool :=
  let n := N_of_ascii c in
  (((48 <=? n) && (n <=? 57)) || ((97 <=? n) && (n <=? 102)) || ((65 <=? n) && (n <=? 70)))%N.

Definition objectid (id : string) : bool :=
  (String.length id =? 24)%nat && all_chars is_hex id.

Definition is_digit (c : ascii) : bool :=
  let n := N_of_ascii c in ((48 <=? n) && (n <=? 57))%N.

Fixpoint decimal (acc : Z) (s : string) : Z :=
  match s with
  | EmptyString => acc
  | String c s' => decimal (10 * acc + Z.of_N (N_of_ascii c - 48)) s'
  end.

Definition number (v : jsval) : jsval :=
  match v with
  | VNum n => VNum n
  | VStr s => if all_chars is_digit s then VNum (decimal 0 s) else VNaN
  | VBool b => VNum (if b then 1 else 0)
  | VNull => VNum 0
  | _ => VNaN
  end.

Definition date (v : jsval) : option N :=
  match v with
  | VNum n => if (0 <=? n)%Z then Some (Z.to_N n) else None
  | VDate t => t
  | _ => None
  end.

Fixpoint cast_all (f : jsval -> option jsval) (l : list jsval) : option (list jsval) :=
  match l with
  | [] => Some []
  | x :: l' =>
      match f x, cast_all f l' with
      | Some y, Some ys => Some (y :: ys)
      | _, _ => None
      end
  end.

Fixpoint cast (t : SchemaType) (v : jsval) : option jsval :=
  match t, v with
  | TString, VStr s => Some v
  | TNumber, VNum n => Some v
  | TBoolean, VBool b => Some v
  | TDate, VDate (Some _) => Some v
  | TObjectId, VStr s => if objectid s then Some v else None
  | TArray elem, VArr items => option_map VArr (cast_all (cast elem) items)
  | _, _ => None
  end.

Definition runtime : Runtime := {|
  regex_valid := literal;
  regex_test := test;
  objectid_valid := objectid;
  schema_cast := cast;
  js_Number := number;
  js_new_Date := date;
  NODE_ENV := None
|}.

End Reference.

(** ** Reading the filter contract

    [supplied] is a query parameter as the filter contract sees it: present
    and non-empty. [listing_predicate] is the contract of the job listing in
    the words of the specification: every supplied filter holds, and when a
    search term is supplied it is found in the title, the description or the
    company name. *)
Definition supplied (param : option string) : option string :=
  match param with
  | Some v => if JsString.truthy v then Some v else None
  | None => None
  end.

Section Contract.
Context `{Runtime}.

Definition holds_if {A} (param : option A) (P : A -> bool) : bool :=
  match param with Some v => P v | None => true end.

Definition contains_i (term : string) (value : option jsval) : bool :=
  field_holds (Regex term "i") value.

(** The filters other than the search term. *)
Definition other_filters (query : gmap string string) (job : Doc) : bool :=
  holds_if (supplied (query !! "status")) (fun v => field_holds (EqStr v) (job !! "status"))
  && holds_if (supplied (query !! "jobType"))
       (fun v => field_holds (EqStr v) (job !! "jobType"))
  && holds_if (supplied (query !! "experienceLevel"))
       (fun v => field_holds (EqStr v) (job !! "experienceLevel"))
  && holds_if (supplied (query !! "primaryTechnology"))
       (fun v => field_holds (EqStr v) (job !! "primaryTechnology"))
  && holds_if (query !! "remote")
       (fun v => field_holds (EqBool (String.eqb v "true")) (job !! "remote"))
  && holds_if (supplied (query !! "location"))
       (fun v => contains_i v (job !! "location"))
  && holds_if (supplied (query !! "requiredSkills"))
       (fun v => existsb (fun token => contains_i token (job !! "requiredSkills"))
                   (filter_skill_tokens v)).

Definition search_holds (search : string) (job : Doc) : bool :=
  contains_i search (job !! "title")
  || contains_i search (job !! "description")
  || contains_i search (job !! "company.name").

Definition listing_predicate (query : gmap string string) (job : Doc) : bool :=
  other_filters query job && holds_if (supplied (query !! "search")) (fun s => search_holds s job).
End Contract.

(** The stored value of path [k] of the document with the given id. *)
Definition path_of (c : Collection) (k id : string) (w : World) : option jsval :=
  match find_by_id id (docs_of c w) with
  | Some d => d !! k
  | None => None
  end.

(** ** Reading the counters *)

(** The numeric value of path [k] of the job with the given id. *)
Definition counter (k id : string) (w : World) : option Z :=
  match find_by_id id (jobs w) with
  | Some d => match d !! k with Some (VNum n) => Some n | _ => None end
  | None => None
  end.

(** A request that has been answered with 200. *)
Definition succeeded (p : Prog Response) : bool :=
  match p with
  | Ret r => (status r =? 200)%N
  | Await _ _ => false
  end.

Definition successes (pool : list (Prog Response)) : nat :=
  length (List.filter succeeded pool).

(** An answered request, the world it leaves, and whether the counter [k]
    went up by one (status 200) or nothing changed (any other status). *)
Definition counted (k id : string) (w : World) (n : Z) (s : World * Prog Response) : Prop :=
  exists resp, s.2 = Ret resp
    /\ (((status resp =? 200)%N = true
         /\ counter k id s.1 = Some (n + 1)%Z
         /\ forall k', k' <> k -> counter k' id s.1 = counter k' id w)
        \/ ((status resp =? 200)%N = false /\ s.1 = w)).

(** A pool of detail fetches followed by apply requests for one job, at
    some point of an interleaving: every request is still the handler or has
    been answered, and the stored counters are the initial values [v] and [a]
    plus the number of requests answered with 200. *)
Definition counters_track `{Runtime} (id : string) (n m : nat) (v a : Z)
  (s : World * list (Prog Response)) : Prop :=
  exists gets applies : list (Prog Response),
    s.2 = (gets ++ applies)%list
    /\ length gets = n
    /\ length applies = m
    /\ Forall (fun p => p = get_job id \/ finished p) gets
    /\ Forall (fun p => p = apply_job id \/ finished p) applies
    /\ counter "views" id s.1 = Some (v + Z.of_nat (successes gets))%Z
    /\ counter "applications" id s.1 = Some (a + Z.of_nat (successes applies))%Z.

(** ** The upload contract and sample data *)

(** A resume is acceptable when its MIME type is PDF, legacy Word or modern
    Word and it is at most 5 MiB large. *)
Definition acceptable_resume (part : Upload.FilePart) : bool :=
  (String.eqb (Upload.mimetype part) "application/pdf"
   || String.eqb (Upload.mimetype part) "application/msword"
   || String.eqb (Upload.mimetype part)
        "application/vnd.openxmlformats-officedocument.wordprocessingml.document")
  && (Upload.size part <=? 5 * 1024 * 1024)%N.

Module Sample.

Definition env (t : N) : Env := mkEnv t true "65f000000000000000000001".
Definition envs : nat -> Env := fun _ => env 5000.
Definition empty : World := mkWorld [] [] [] ∅.

(** One request handled on the reference platform. *)
Definition handle (p : Prog Response) (w : World) : World * Response :=
  @run Reference.runtime Response envs p w.

Definition acme_job : Doc :=
  {[ "_id" := VStr "65f0000000000000000000aa";
     "title" := VStr "Engineer";
     "description" := VStr "Build things";
     "company.name" := VStr "Acme Corp";
     "updatedAt" := VDate (Some 1000%N);
     "views" := VNum 0;
     "applications" := VNum 0 ]}.

Definition one_job : World := mkWorld [acme_job] [] [] ∅.

(** A listing request with a search term and three other filters. *)
Definition composite : gmap string string :=
  {[ "search" := "acme"; "status" := "active"; "remote" := "true";
     "requiredSkills" := "rust, go" ]}.

(** The filter object the listing builds for it. *)
Definition composite_filter : Query :=
  {[ "status" := equals "active";
     "remote" := Field (EqBool true);
     "$or" := search_clause "acme";
     "requiredSkills" := Field (InRegExps [mkRegExp "rust" "i"; mkRegExp "go" "i"]) ]}.

(** A job that only its company name connects to the term [acme]. *)
Definition listed (id status company : string) (remote : bool) (skills : list string) : Doc :=
  {[ "_id" := VStr id;
     "title" := VStr "Engineer";
     "description" := VStr "Build things";
     "company.name" := VStr company;
     "status" := VStr status;
     "remote" := VBool remote;
     "requiredSkills" := VArr (List.map VStr skills) ]}.

Definition acme_active : Doc := listed "65f0000000000000000000b1" "active" "Acme Corp" true ["Rust"].
Definition acme_draft : Doc := listed "65f0000000000000000000b2" "draft" "Acme Corp" true ["Rust"].
Definition acme_onsite : Doc := listed "65f0000000000000000000b3" "active" "Acme Corp" false ["Rust"].
Definition acme_java : Doc := listed "65f0000000000000000000b4" "active" "Acme Corp" true ["Java"].
Definition other_active : Doc := listed "65f0000000000000000000b5" "active" "Widgets Ltd" true ["Go"].

(** Two detail fetches and one apply request for the sample job, served in
    the order apply, second fetch, first fetch. *)
Definition in_flight : list (Prog Response) :=
  (replicate 2 (@get_job Reference.runtime "65f0000000000000000000aa")
   ++ replicate 1 (apply_job "65f0000000000000000000aa"))%list.

Definition served : World * list (Prog Response) :=
  @schedule Reference.runtime Response [(env 5000, 2%nat); (env 5001, 1%nat); (env 5002, 0%nat)]
    (one_job, in_flight).

Definition pdf : Upload.FilePart := Upload.mkFilePart "resumeFile" "cv.pdf" "application/pdf" 2048.
Definition png : Upload.FilePart := Upload.mkFilePart "resumeFile" "me.png" "image/png" 2048.

(** A candidate form without [email]. *)
Definition no_email : gmap string jsval :=
  {[ "name" := VStr "Ann"; "skills" := VStr "go, rust" ]}.

(** A job body without [benefits]. *)
Definition no_benefits : gmap string jsval :=
  {[ "title" := VStr "Engineer";
     "requirements" := VStr "a,b";
     "responsibilities" := VArr [];
     "requiredSkills" := VStr "go" ]}.

Definition candidate (id name : string) (updated : N) (file : jsval) : Doc :=
  {[ "_id" := VStr id; "name" := VStr name; "email" := VStr (name ++ "@example.com");
     "technology" := VStr "Go"; "skills" := VArr [VStr "go"];
     "updatedAt" := VDate (Some updated);
     "resumeFile.filename" := file; "resumeFile.path" := file;
     "resumeFile.mimetype" := file ]}.

(** What POST /jobs hands to [new Job(...)] for a complete body. *)
Definition job_init : jsval :=
  VObj [("title", VStr "Engineer");
        ("company", VObj [("name", VStr "Acme Corp")]);
        ("description", VStr "Build things");
        ("requirements", VArr [VStr "go"]);
        ("responsibilities", VArr []);
        ("jobType", VStr "Full-time");
        ("experienceLevel", VStr "Lead");
        ("location", VStr "Springfield, IL");
        ("salary", VObj [("min", VNum 1); ("max", VNum 2)]);
        ("primaryTechnology", VStr "Go");
        ("requiredSkills", VArr [VStr "Golang"]);
        ("benefits", VArr []);
        ("applicationDeadline", VDate (Some 9000%N))].

Definition resume (file : jsval) : World :=
  mkWorld [] [candidate "65f0000000000000000000c1" "ann" 10 file;
              candidate "65f0000000000000000000c2" "joanna" 20 file] [] ∅.

End Sample.

(** ** Reading strings and stores *)

(** A resume that the upload stores: one of the three MIME types and fewer
    bytes than [limits.fileSize]. *)
Definition storable_resume (part : Upload.FilePart) : bool :=
  (String.eqb (Upload.mimetype part) "application/pdf"
   || String.eqb (Upload.mimetype part) "application/msword"
   || String.eqb (Upload.mimetype part)
        "application/vnd.openxmlformats-officedocument.wordprocessingml.document")
  && (Upload.size part <? Upload.limits_fileSize)%N.

(** The ObjectId of a document. *)
Definition doc_oid (d : Doc) : option string := oid <$> str_at "_id" d.

(** Does the character occur in the string. *)
Fixpoint occurs (c : ascii) (s : string) : bool :=
  match s with
  | EmptyString => false
  | String c' s' => Ascii.eqb c' c || occurs c s'
  end.

(** A string of decimal digits. *)
Definition all_digits (s : string) : Prop := Reference.all_chars Reference.is_digit s = true.

(** A string without white space at either end. *)
Definition trimmed (s : string) : Prop := JsString.trim s = s.

(** A list in descending order of a date key. *)
Definition newest_first {A} (key : A -> N) (l : list A) : Prop :=
  StronglySorted (fun a b => (key b <= key a)%N) l.

(** The query parameters that the job filter reads. *)
Definition job_filter_params : list string :=
  ["status"; "jobType"; "experienceLevel"; "primaryTechnology"; "remote"; "location";
   "search"; "requiredSkills"].

(** The values that [f] reads off the documents of a collection are
    pairwise distinct. *)
Definition unique_by (f : Doc -> option string) (l : list Doc) : Prop := NoDup (omap f l).

(** ObjectIds are unique in every collection and no two candidates share
    an email. *)
Definition store_ok (w : World) : Prop :=
  unique_by doc_oid (jobs w)
  /\ unique_by doc_oid (candidates w)
  /\ unique_by doc_oid (hotlists w)
  /\ unique_by (str_at "email") (candidates w).

(** ** The remaining routes *)

(** *** [parseInt] and the pagination arithmetic of GET /jobs *)

Module JsNumber.

Definition digit_value (c : ascii) : option Z :=
  let n := N_of_ascii c in
  if ((48 <=? n) && (n <=? 57))%N then Some (Z.of_N (n - 48))
  else if ((97 <=? n) && (n <=? 102))%N then Some (Z.of_N (n - 87))
  else if ((65 <=? n) && (n <=? 70))%N then Some (Z.of_N (n - 55))
  else None.

(** The longest prefix of digits of the radix, as a number; [None] when
    there is no digit. *)
Fixpoint digits (radix : Z) (acc : option Z) (s : string) : option Z :=
  match s with
  | EmptyString => acc
  | String c s' =>
      match digit_value c with
      | Some d =>
          if (d <? radix)%Z
          then digits radix (Some (radix * match acc with Some a => a | None => 0 end + d)%Z) s'
          else acc
      | None => acc
      end
  end.

(** [parseInt(s)] without a radix: leading white space, an optional sign,
    an optional [0x]/[0X] prefix, then digits; [None] is [NaN]. *)
Definition parseInt (s : string) : option Z :=
  let s := JsString.trimStart s in
  let (sign, s) :=
    match s with
    | String "-" s' => ((-1)%Z, s')
    | String "+" s' => (1%Z, s')
    | _ => (1%Z, s)
    end in
  let (radix, s) :=
    match s with
    | String "0" (String "x" s') => (16%Z, s')
    | String "0" (String "X" s') => (16%Z, s')
    | _ => (10%Z, s)
    end in
  option_map (Z.mul sign) (digits radix None s).

(** A number as [JSON.stringify] renders it: [NaN] and the infinities
    become [null]. *)
Definition json (n : option Z) : jsval :=
  match n with Some z => VNum z | None => VNull end.

(** [(page - 1) * limit]. *)
Definition skip_of (page limit : option Z) : option Z :=
  match page, limit with
  | Some p, Some l => Some ((p - 1) * l)%Z
  | _, _ => None
  end.

(** [Math.ceil(total / limit)] as the response shows it: the division by
    zero gives [NaN] or an infinity, which JSON renders as [null]. *)
Definition pages_json (total : nat) (limit : option Z) : jsval :=
  match limit with
  | Some l =>
      if (0 <? l)%Z then VNum ((Z.of_nat total + l - 1) / l)
      else if (l <? 0)%Z then VNum (- (Z.of_nat total / - l))
      else VNull
  | None => VNull
  end.

End JsNumber.

(** [Number.MAX_SAFE_INTEGER]: up to here the numbers of the handler are
    exact. *)
Definition max_safe_integer : Z := 2 ^ 53 - 1.

(** What the store answers to a [skip]/[limit] outside the range
    [0 <= skip], [1 <= limit], both safe integers, (or [NaN]) is left to the
    platform; it is given the projected, sorted matches. *)
Class Paging := {
  find_outside_range : option Z -> option Z -> list Doc -> Error + list Doc
}.

(** Inclusive projection [select: 'p1 p2'] of [populate]: the listed paths
    and [_id]. *)
Definition include (paths : list string) (d : Doc) : Doc :=
  filter (fun kv : string * jsval => (String.eqb kv.1 "_id" || excluded paths kv.1) = true) d.

(** The filter object as the debug block of GET /jobs serialises it; a
    [RegExp] serialises to an empty object. *)
Definition field_cond_json (c : FieldCond) : jsval :=
  match c with
  | EqStr s => VStr s
  | EqBool b => VBool b
  | Regex pattern options => VObj [("$regex", VStr pattern); ("$options", VStr options)]
  | InRegExps res => VObj [("$in", VArr (List.map (fun _ => VObj []) res))]
  end.

Definition cond_json (c : Cond) : jsval :=
  match c with
  | Field f => field_cond_json f
  | Or clauses =>
      VArr (List.map (fun kc : string * FieldCond => VObj [(kc.1, field_cond_json kc.2)]) clauses)
  end.

(** The keys of the filter object of GET /jobs, in the order in which the
    handler assigns them, which is the order in which they are serialised. *)
Definition job_query_keys : list string :=
  ["status"; "jobType"; "experienceLevel"; "primaryTechnology"; "remote"; "location";
   "$or"; "requiredSkills"].

Definition query_json (q : Query) : jsval :=
  VObj (omap (fun k => (fun c => (k, cond_json c)) <$> q !! k) job_query_keys).

Section MoreHandlers.
Context `{Runtime} `{Paging}.

(** *** GET /jobs *)

(** [Job.find(query).sort({ postedDate: -1 }).skip(skip).limit(limit)
    .select('-__v').lean()]. *)
Definition find_jobs_page (e : Env) (q : Query) (skip limit : option Z) (w : World)
  : Error + list Doc :=
  match (model_find e Job q (mkFindOptions (Some "postedDate") None ["__v"]) w).2 with
  | inl err => inl err
  | inr all =>
      match skip, limit with
      | Some s, Some l =>
          if ((0 <=? s) && (s <=? max_safe_integer) && (1 <=? l) && (l <=? max_safe_integer))%Z
          then inr (take (Z.to_nat l) (drop (Z.to_nat s) all))
          else find_outside_range skip limit all
      | _, _ => find_outside_range skip limit all
      end
  end.

(** [Job.countDocuments(query)]. *)
Definition count_jobs (e : Env) (q : Query) (w : World) : Error + nat :=
  match (model_find e Job q (mkFindOptions None None []) w).2 with
  | inl err => inl err
  | inr all => inr (length all)
  end.

(** The handler awaits the find and then the count: [w_find] and [w_count]
    are the store at these two moments. [page] and [limit] default to the
    numbers 1 and 10 when the parameter is absent. *)
Definition list_jobs_at (e_find e_count : Env) (query : gmap string string)
  (w_find w_count : World) : Response :=
  let fail err := failure_detail 500 "Error fetching jobs" err in
  let page := match query !! "page" with Some p => JsNumber.parseInt p | None => Some 1%Z end in
  let limit := match query !! "limit" with Some l => JsNumber.parseInt l | None => Some 10%Z end in
  let raw k d := match query !! k with Some v => VStr v | None => VNum d end in
  match build_jobs_query query with
  | inl err => fail err
  | inr q =>
      let skip := JsNumber.skip_of page limit in
      match find_jobs_page e_find q skip limit w_find with
      | inl err => fail err
      | inr found =>
          match count_jobs e_count q w_count with
          | inl err => fail err
          | inr total =>
              let debug :=
                match NODE_ENV with
                | Some env =>
                    if String.eqb env "development"
                    then VObj [("query", query_json q);
                               ("pagination",
                                VObj [("page", raw "page" 1%Z); ("limit", raw "limit" 10%Z);
                                      ("skip", JsNumber.json skip);
                                      ("total", VNum (Z.of_nat total))])]
                    else VNull
                | None => VNull
                end in
              mkResponse 200
                (VObj [("success", VBool true);
                       ("data",
                        VObj [("jobs", VArr (List.map doc_json found));
                              ("pagination",
                               VObj [("total", VNum (Z.of_nat total));
                                     ("page", JsNumber.json page);
                                     ("pages", JsNumber.pages_json total limit);
                                     ("limit", JsNumber.json limit)])]);
                       ("debug", debug)])
          end
      end
  end.

(** The listing against a store that does not change under it. *)
Definition list_jobs (e : Env) (query : gmap string string) (w : World) : Response :=
  list_jobs_at e e query w w.

(** *** GET /candidates *)
Definition get_candidates : Prog Response :=
  Await (Model_find Candidate ∅ (mkFindOptions None None []))
    (fun r => Ret
      match r with
      | inr found => mkResponse 200 (VArr (List.map doc_json found))
      | inl err => message_only 500 (err_message err)
      end).

(** *** POST /candidate *)
Definition post_candidate (body : gmap string jsval) : Prog Response :=
  let init := VObj [("name", body_get body "name");
                    ("email", body_get body "email");
                    ("skills", body_get body "skills");
                    ("experience", body_get body "experience")] in
  Await (Model_save Candidate init)
    (fun r => Ret
      match r with
      | inr newCandidate => mkResponse 201 (doc_json newCandidate)
      | inl err => message_only 400 (err_message err)
      end).

(** *** POST /hotlists *)
Definition post_hotlists (body : gmap string jsval) : Prog Response :=
  let init := VObj [("name", body_get body "name");
                    ("description", body_get body "description");
                    ("candidates", body_get body "candidates")] in
  Await (Model_save Hotlist init)
    (fun r => Ret
      match r with
      | inr newHotlist => mkResponse 201 (doc_json newHotlist)
      | inl err => message_only 400 (err_message err)
      end).

(** A hotlist with its [candidates] path populated. *)
Definition populated_json (hotlist : Doc) (members : list Doc) : jsval :=
  doc_json (<["candidates" := VArr (List.map doc_json members)]> hotlist).

(** *** GET /hotlists: [Hotlist.find().populate('candidates')] *)
Definition get_hotlists (e : Env) (w : World) : Response :=
  match (model_find e Hotlist ∅ (mkFindOptions None None []) w).2 with
  | inr found =>
      mkResponse 200
        (VArr (List.map (fun h => populated_json h (populate (candidates w) "candidates" h))
                 found))
  | inl err => message_only 500 (err_message err)
  end.

(** *** GET /hotlists/search *)
Definition hotlist_search_query (q : string) : Query :=
  {["$or" := Or [("name", Regex q "i"); ("description", Regex q "i")]]}.

(** [Hotlist.find(searchQuery).limit(10)
    .populate({ path: 'candidates', select: 'name email technology' })
    .sort({ updatedAt: -1 }).lean()]. *)
Definition found_hotlists (e : Env) (q : string) (w : World)
  : Error + list (Doc * list Doc) :=
  match (model_find e Hotlist (hotlist_search_query q)
           (mkFindOptions (Some "updatedAt") (Some 10%nat) []) w).2 with
  | inl err => inl err
  | inr found =>
      inr (List.map
             (fun h => (h, List.map (include ["name"; "email"; "technology"])
                             (populate (candidates w) "candidates" h)))
             found)
  end.

Definition search_hotlists (e : Env) (query : gmap string string) (w : World) : Response :=
  match supplied (query !! "q") with
  | Some q =>
      match found_hotlists e q w with
      | inr found =>
          mkResponse 200
            (VObj [("success", VBool true);
                   ("data", VArr (List.map (fun hm : Doc * list Doc => populated_json hm.1 hm.2)
                                    found))])
      | inl err => failure_detail 500 "Error searching hotlists" err
      end
  | None => failure 400 "Search query is required"
  end.
End MoreHandlers.

(** ** The requests of the application *)

Definition app_model (m : Model) : Prop := m = Job \/ m = Candidate \/ m = Hotlist.

(** An operation that saves only through one of the three models. *)
Definition op_ok {X} (op : Op X) : Prop :=
  match op with
  | Model_save m _ => app_model m
  | _ => True
  end.

Inductive prog_ok {R} : Prog R -> Prop :=
| ok_Ret (r : R) : prog_ok (Ret r)
| ok_Await {X} (op : Op X) (k : X -> Prog R) :
    op_ok op -> (forall x, prog_ok (k x)) -> prog_ok (Await op k).

(** The requests that the routes serve as programs of operations. *)
Inductive app_request `{Runtime} : Prog Response -> Prop :=
| req_get_job id : app_request (get_job id)
| req_apply_job id : app_request (apply_job id)
| req_post_jobs body : app_request (post_jobs body)
| req_get_candidates : app_request get_candidates
| req_search_candidates query : app_request (search_candidates query)
| req_get_candidate id : app_request (get_candidate id)
| req_post_candidate body : app_request (post_candidate body)
| req_post_candidate_with_resume body part :
    app_request (post_candidate_with_resume body part)
| req_get_hotlist id : app_request (get_hotlist id)
| req_post_hotlists body : app_request (post_hotlists body).

(** The value of [views] before an increment: a missing path counts as 0. *)
Definition number_or_zero (v : option jsval) : Z :=
  match v with Some (VNum n) => n | _ => 0%Z end.

(** ** Reading schemas and bodies *)

Definition decl_key (d : PathDecl) : string := path_key (path d).

(** The paths of a schema are pairwise distinct and none of them is
    [_id] or [__v]; a path named [updatedAt] is neither required nor
    enumerated. *)
Definition schema_ok (ds : list PathDecl) : bool :=
  bool_decide (NoDup (List.map decl_key ds))
  && forallb (fun d =>
       negb (String.eqb (decl_key d) "_id")
       && negb (String.eqb (decl_key d) "__v")
       && (negb (String.eqb (decl_key d) "updatedAt")
           || (negb (required d) && match enum d with None => true | Some _ => false end)))
     ds.

(** A value that satisfies [required]. *)
Definition present (v : jsval) : Prop := v <> VUndef /\ v <> VNull /\ v <> VStr "".

(** The body fields that each create route hands to its model. *)
Definition post_jobs_fields : list string :=
  ["title"; "company"; "description"; "requirements"; "responsibilities"; "jobType";
   "experienceLevel"; "location"; "remote"; "salary"; "primaryTechnology"; "requiredSkills";
   "benefits"; "status"; "applicationDeadline"].

Definition post_candidate_fields : list string := ["name"; "email"; "skills"; "experience"].

Definition with_resume_fields : list string :=
  ["name"; "email"; "yearsOfExp"; "technology"; "skills"; "experience"; "avatar"; "status"].

Definition post_hotlists_fields : list string := ["name"; "description"; "candidates"].

(** The outcome of a create route on collection [c]: one document appended
    and returned with 201, or nothing stored and 400. *)
Definition created_or_refused (c : Collection) (id : string) (w : World)
  (out : World * Response) : Prop :=
  (exists doc,
      out.1 = set_docs c (docs_of c w ++ [doc])%list w
      /\ out.2 = mkResponse 201 (doc_json doc)
      /\ str_at "_id" doc = Some id)
  \/ (out.1 = w /\ status out.2 = 400%N).

(** ** Reading the job listing *)

(** Page [p] of the listing with [l] jobs to a page (empty when the find
    fails). *)
Definition jobs_page `{Runtime} `{Paging} (e : Env) (q : Query) (p l : Z) (w : World)
  : list Doc :=
  match find_jobs_page e q (JsNumber.skip_of (Some p) (Some l)) (Some l) w with
  | inr found => found
  | inl _ => []
  end.

(** All matches of the listing, newest first, without [__v]. *)
Definition all_jobs `{Runtime} (q : Query) (w : World) : list Doc :=
  List.map (exclude ["__v"])
    (sort_desc_by (date_key "postedDate") (List.filter (matches q) (jobs w))).

(** The least number of pages of [l] that hold [total] items. *)
Definition pages_needed (total : nat) (l : Z) : Z := (Z.of_nat total + l - 1) / l.

(** More sample data. *)
Module More.

Definition env (t : N) (id : string) : Env := mkEnv t true id.

(** A candidate form for POST /candidate. *)
Definition signup (name email : string) : gmap string jsval :=
  {[ "name" := VStr name; "email" := VStr email ]}.

(** Two sign-ups with the same email, under different generated ids. *)
Definition two_signups : World * list (Prog Response) :=
  @schedule Reference.runtime Response
    [(env 5000 "65f0000000000000000000d1", 0%nat); (env 5001 "65f0000000000000000000d2", 1%nat)]
    (Sample.empty,
     [post_candidate (signup "Ann" "ann@example.com");
      post_candidate (signup "Anna" "ann@example.com")]).

(** Twenty-five jobs, posted at times 1 to 25. *)
Definition posted (n : nat) : Doc :=
  {[ "_id" := VStr (pretty n); "title" := VStr "Engineer"; "postedDate" := VDate (Some (N.of_nat n)) ]}.

Definition many_jobs : World := mkWorld (List.map posted (seq 1 25)) [] [] ∅.

(** A store that refuses every [skip] and [limit] outside the range. *)
Definition refusing : Paging :=
  {| find_outside_range _ _ _ := inl (MongoServerError "skip or limit out of range") |}.

(** A hotlist that references a stored candidate and a missing one. *)
Definition with_hotlist (file : jsval) : World :=
  mkWorld []
    [Sample.candidate "65f0000000000000000000c1" "ann" 10 file]
    [ {[ "_id" := VStr "65f0000000000000000000e1"; "name" := VStr "A-list";
         "candidates" := VArr [VStr "65f0000000000000000000c1";
                               VStr "65f0000000000000000000c9"] ]} ]
    ∅.

End More.

(** * Properties *)

(** ** Tokenisation (C3) *)

Lemma create_tokens_filter_tokens (s : string) :
  create_skill_tokens s = List.filter JsString.truthy (filter_skill_tokens s).
Proof. reflexivity. Qed.

Lemma create_tokens_nonempty (s t : string) :
  In t (create_skill_tokens s) -> t <> "".
Proof.
  unfold create_skill_tokens. rewrite filter_In. intros [_ Ht] ->. discriminate Ht.
Qed.

(** C3: the two tokenisations are not the same function. On the skills
    string ["go,,rust"] the candidate-creation path drops the empty token
    while the [requiredSkills] filter keeps it, and on that request the
    filter object carries a pattern compiled from the empty string. *)
Theorem skill_tokenisations_diverge :
  create_skill_tokens "go,,rust" = ["go"; "rust"]
  /\ filter_skill_tokens "go,,rust" = ["go"; ""; "rust"]
  /\ @build_jobs_query Reference.runtime {["requiredSkills" := "go,,rust"]}
     = inr {["requiredSkills" :=
               Field (InRegExps [mkRegExp "go" "i"; mkRegExp "" "i"; mkRegExp "rust" "i"])]}.
Proof. repeat split; vm_compute; reflexivity. Qed.

(** ** Query construction (C4, C5) *)

Section QueryConstruction.
Context `{Runtime}.

Lemma if_truthy_supplied param key cond (q : Query) :
  if_truthy param key cond q
  = match supplied param with Some v => <[key := cond v]> q | None => q end.
Proof. unfold if_truthy, supplied. destruct param as [v|]; [destruct (JsString.truthy v)|]; done. Qed.

Lemma supplied_insert_empty (p k : string) (query : gmap string string) :
  supplied (<[p := ""]> query !! k) = supplied (delete p query !! k).
Proof.
  destruct (decide (p = k)) as [->|Hne].
  - by rewrite lookup_insert_eq, lookup_delete_eq.
  - by rewrite lookup_insert_ne, lookup_delete_ne.
Qed.

Lemma if_truthy_lookup_ne param key cond (q : Query) k :
  key <> k -> if_truthy param key cond q !! k = q !! k.
Proof.
  intros Hne. rewrite if_truthy_supplied.
  destruct (supplied param); [by rewrite lookup_insert_ne|done].
Qed.

Lemma if_truthy_lookup_eq param key cond (q : Query) :
  if_truthy param key cond q !! key
  = match supplied param with Some v => Some (cond v) | None => q !! key end.
Proof.
  rewrite if_truthy_supplied. destruct (supplied param); [by rewrite lookup_insert_eq|done].
Qed.

Lemma if_defined_lookup_ne param key cond (q : Query) k :
  key <> k -> if_defined param key cond q !! k = q !! k.
Proof. intros Hne. unfold if_defined. destruct param; [by rewrite lookup_insert_ne|done]. Qed.

Lemma if_defined_lookup_eq param key cond (q : Query) :
  if_defined param key cond q !! key
  = match param with Some v => Some (cond v) | None => q !! key end.
Proof. unfold if_defined. destruct param; [by rewrite lookup_insert_eq|done]. Qed.

Lemma build_jobs_filters_empty_param (p : string) (query : gmap string string) :
  p <> "remote" ->
  build_jobs_filters (<[p := ""]> query) = build_jobs_filters (delete p query).
Proof.
  intros Hp.
  assert (Hremote : <[p := ""]> query !! "remote" = delete p query !! "remote")
    by (by rewrite lookup_insert_ne, lookup_delete_ne).
  unfold build_jobs_filters.
  rewrite Hremote, !if_truthy_supplied, !supplied_insert_empty. reflexivity.
Qed.

Lemma build_jobs_filters_remote (query : gmap string string) :
  build_jobs_filters query !! "remote"
  = (fun v => Field (EqBool (String.eqb v "true"))) <$> (query !! "remote").
Proof.
  unfold build_jobs_filters.
  rewrite !(if_truthy_lookup_ne _ _ _ _ "remote") by done.
  rewrite if_defined_lookup_eq.
  rewrite !(if_truthy_lookup_ne _ _ _ _ "remote") by done.
  by destruct (query !! "remote").
Qed.

Lemma matches_insert (q : Query) k c (d : Doc) :
  q !! k = None -> matches (<[k := c]> q) d = cond_holds d k c && matches q d.
Proof.
  intros Hk. unfold matches. apply eq_true_iff_eq.
  rewrite andb_true_iff, !bool_decide_eq_true.
  rewrite (map_Forall_insert (fun k c => cond_holds d k c = true)) by done. reflexivity.
Qed.

Lemma matches_empty (d : Doc) : matches ∅ d = true.
Proof. unfold matches. apply bool_decide_eq_true. apply map_Forall_empty. Qed.

Lemma matches_if_truthy param key cond (q : Query) (d : Doc) :
  q !! key = None ->
  matches (if_truthy param key cond q) d
  = holds_if (supplied param) (fun v => cond_holds d key (cond v)) && matches q d.
Proof.
  intros Hk. rewrite if_truthy_supplied.
  destruct (supplied param); [by apply matches_insert|done].
Qed.

Lemma matches_if_defined param key cond (q : Query) (d : Doc) :
  q !! key = None ->
  matches (if_defined param key cond q) d
  = holds_if param (fun v => cond_holds d key (cond v)) && matches q d.
Proof.
  intros Hk. unfold if_defined. destruct param; [by apply matches_insert|done].
Qed.

Ltac fresh_key :=
  repeat first [rewrite if_truthy_lookup_ne by done | rewrite if_defined_lookup_ne by done];
  apply lookup_empty.

Lemma search_clause_holds (search : string) (d : Doc) (k : string) :
  cond_holds d k (search_clause search) = search_holds search d.
Proof. unfold search_clause, search_holds, contains_i. cbn. by rewrite orb_false_r, orb_assoc. Qed.

Lemma RegExp_all_inr (patterns : list string) (fl : string) (res : list RegExp) :
  RegExp_all patterns fl = inr res -> res = List.map (fun p => mkRegExp p fl) patterns.
Proof.
  revert res. induction patterns as [|p ps IH]; intros res; cbn [RegExp_all].
  - by intros [= <-].
  - unfold RegExp_new. destruct (regex_valid p); cbn [bindE]; [|done].
    destruct (RegExp_all ps fl) as [e|rs]; cbn [bindE]; [done|].
    intros [= <-]. cbn. f_equal. by apply IH.
Qed.

Lemma InRegExps_holds (tokens : list string) (v : option jsval) :
  field_holds (InRegExps (List.map (fun p => mkRegExp p "i") tokens)) v
  = existsb (fun token => contains_i token v) tokens.
Proof.
  cbn [field_holds]. induction tokens as [|t ts IH]; [done|].
  cbn [List.map existsb]. by rewrite IH.
Qed.

Lemma matches_build_jobs_filters (query : gmap string string) (d : Doc) :
  matches (build_jobs_filters query) d
  = holds_if (supplied (query !! "search")) (fun s => search_holds s d)
    && (holds_if (supplied (query !! "location")) (fun v => contains_i v (d !! "location"))
    && (holds_if (query !! "remote")
          (fun v => field_holds (EqBool (String.eqb v "true")) (d !! "remote"))
    && (holds_if (supplied (query !! "primaryTechnology"))
          (fun v => field_holds (EqStr v) (d !! "primaryTechnology"))
    && (holds_if (supplied (query !! "experienceLevel"))
          (fun v => field_holds (EqStr v) (d !! "experienceLevel"))
    && (holds_if (supplied (query !! "jobType"))
          (fun v => field_holds (EqStr v) (d !! "jobType"))
    && (holds_if (supplied (query !! "status"))
          (fun v => field_holds (EqStr v) (d !! "status")) && true)))))).
Proof.
  unfold build_jobs_filters.
  rewrite matches_if_truthy by fresh_key.
  rewrite matches_if_truthy by fresh_key.
  rewrite matches_if_defined by fresh_key.
  rewrite !matches_if_truthy by fresh_key.
  rewrite matches_empty.
  assert (Hsearch :
    holds_if (supplied (query !! "search")) (fun v => cond_holds d "$or" (search_clause v))
    = holds_if (supplied (query !! "search")) (fun s => search_holds s d)).
  { destruct (supplied (query !! "search")); [apply search_clause_holds|done]. }
  rewrite Hsearch. reflexivity.
Qed.

Lemma build_jobs_filters_skills_fresh (query : gmap string string) :
  build_jobs_filters query !! "requiredSkills" = None.
Proof. unfold build_jobs_filters. fresh_key. Qed.

(** The filter object that the code builds denotes the predicate of the
    filter contract. *)
Lemma matches_build_jobs_query (query : gmap string string) (q : Query) (d : Doc) :
  build_jobs_query query = inr q -> matches q d = listing_predicate query d.
Proof.
  unfold build_jobs_query, listing_predicate, other_filters.
  pose proof (matches_build_jobs_filters query d) as Hf.
  pose proof (build_jobs_filters_skills_fresh query) as Hfresh.
  destruct (query !! "requiredSkills") as [skills|].
  - change (supplied (Some skills))
      with (if JsString.truthy skills then Some skills else @None string).
    destruct (JsString.truthy skills).
    + destruct (RegExp_all _ _) as [e|res] eqn:Hres; cbn [bindE]; [done|].
      intros [= <-]. rewrite matches_insert by done. rewrite Hf.
      apply RegExp_all_inr in Hres as ->. cbn [cond_holds holds_if].
      rewrite InRegExps_holds.
      repeat match goal with |- context [holds_if ?a ?b] => destruct (holds_if a b) end;
        by destruct (existsb _ _).
    + intros [= <-]. rewrite Hf. cbn [holds_if].
      by repeat match goal with |- context [holds_if ?a ?b] => destruct (holds_if a b) end.
  - intros [= <-]. rewrite Hf. change (supplied None) with (@None string). cbn [holds_if].
    by repeat match goal with |- context [holds_if ?a ?b] => destruct (holds_if a b) end.
Qed.
End QueryConstruction.

(** C4, as stated, fails: an empty [remote] parameter is not treated like
    an omitted one, it constrains the field to [false]. *)
Lemma empty_remote_is_a_constraint :
  ~ (forall (p : string) (query : gmap string string),
       @build_jobs_query Reference.runtime (<[p := ""]> query)
       = @build_jobs_query Reference.runtime (delete p query)).
Proof.
  intros Hall. specialize (Hall "remote" ∅).
  assert (Hl : @build_jobs_query Reference.runtime (<["remote" := ""]> ∅)
               = inr {["remote" := Field (EqBool false)]}) by (vm_compute; reflexivity).
  assert (Hr : @build_jobs_query Reference.runtime (delete "remote" ∅) = inr ∅)
    by (vm_compute; reflexivity).
  rewrite Hl, Hr in Hall.
  apply (f_equal (fun r : Error + Query =>
                    match r with inr q => q !! "remote" | inl _ => None end)) in Hall.
  cbv beta iota in Hall.
  rewrite lookup_singleton_eq, lookup_empty in Hall. discriminate.
Qed.

(** C4, amended: for every parameter other than [remote], the empty string
    is treated exactly like an omitted parameter; a [remote] parameter
    constrains the field whenever it is present, to [true] for the literal
    ["true"] and to [false] for every other value, the empty string
    included. *)
Theorem empty_parameter_is_absent `{Runtime} (p : string) (query : gmap string string) :
  p <> "remote" ->
  build_jobs_query (<[p := ""]> query) = build_jobs_query (delete p query)
  /\ match build_jobs_query query with
     | inr q =>
         q !! "remote" = (fun v => Field (EqBool (String.eqb v "true"))) <$> (query !! "remote")
     | inl _ => True
     end.
Proof.
  intros Hp. split.
  - unfold build_jobs_query. rewrite build_jobs_filters_empty_param by done.
    destruct (decide (p = "requiredSkills")) as [->|Hne].
    + by rewrite lookup_insert_eq, lookup_delete_eq.
    + by rewrite lookup_insert_ne, lookup_delete_ne.
  - unfold build_jobs_query.
    destruct (query !! "requiredSkills") as [skills|];
      [destruct (JsString.truthy skills);
       [destruct (RegExp_all _ _); cbn [bindE]; [done|] |] |];
      rewrite ?lookup_insert_ne by done; apply build_jobs_filters_remote.
Qed.

Lemma empty_parameter_is_absent_witness :
  "status" <> "remote"
  /\ @build_jobs_query Reference.runtime (<["status" := ""]> {["remote" := "yes"]})
     = @build_jobs_query Reference.runtime (delete "status" {["remote" := "yes"]}).
Proof.
  split; [discriminate|].
  apply (@empty_parameter_is_absent Reference.runtime "status" {["remote" := "yes"]}).
  discriminate.
Defined.

(** C5: when [search] is supplied, the filter object built for the job
    listing holds of a job exactly when all the other supplied filters hold
    and the term is found (case-insensitive pattern test of the store) in
    the title, the description or the company name; so a job whose company
    name alone contains the term matches whenever no other filter excludes
    it. *)
Theorem search_composes_with_filters `{Runtime}
  (query : gmap string string) (q : Query) (search : string) (job : Doc) :
  build_jobs_query query = inr q ->
  query !! "search" = Some search ->
  search <> "" ->
  matches q job
  = other_filters query job
    && (contains_i search (job !! "title")
        || contains_i search (job !! "description")
        || contains_i search (job !! "company.name"))
  /\ (contains_i search (job !! "company.name") = true ->
      other_filters query job = true -> matches q job = true).
Proof.
  intros Hq Hs Hne.
  assert (Hm : matches q job = other_filters query job && search_holds search job).
  { rewrite (matches_build_jobs_query query q job Hq). unfold listing_predicate.
    rewrite Hs. unfold supplied. destruct search; [done|reflexivity]. }
  split; [exact Hm|].
  intros Hc Ho. rewrite Hm, Ho. unfold search_holds. rewrite Hc.
  by rewrite orb_true_r.
Qed.

Lemma search_composes_with_filters_witness :
  @build_jobs_query Reference.runtime Sample.composite = inr Sample.composite_filter
  /\ Sample.composite !! "search" = Some "acme"
  /\ @other_filters Reference.runtime Sample.composite Sample.acme_active = true
  /\ @matches Reference.runtime Sample.composite_filter Sample.acme_active = true
  /\ @matches Reference.runtime Sample.composite_filter Sample.acme_draft = false
  /\ @matches Reference.runtime Sample.composite_filter Sample.acme_onsite = false
  /\ @matches Reference.runtime Sample.composite_filter Sample.acme_java = false
  /\ @matches Reference.runtime Sample.composite_filter Sample.other_active = false.
Proof.
  assert (Hq : @build_jobs_query Reference.runtime Sample.composite
               = inr Sample.composite_filter) by (vm_compute; reflexivity).
  assert (Hs : Sample.composite !! "search" = Some "acme") by (vm_compute; reflexivity).
  assert (Hne : "acme" <> "") by discriminate.
  split; [exact Hq|]. split; [exact Hs|]. split; [vm_compute; reflexivity|].
  split.
  { apply (proj2 (@search_composes_with_filters Reference.runtime Sample.composite
                    Sample.composite_filter "acme" Sample.acme_active Hq Hs Hne));
      vm_compute; reflexivity. }
  split.
  { rewrite (proj1 (@search_composes_with_filters Reference.runtime Sample.composite
                      Sample.composite_filter "acme" Sample.acme_draft Hq Hs Hne)).
    vm_compute. reflexivity. }
  split.
  { rewrite (proj1 (@search_composes_with_filters Reference.runtime Sample.composite
                      Sample.composite_filter "acme" Sample.acme_onsite Hq Hs Hne)).
    vm_compute. reflexivity. }
  split.
  { rewrite (proj1 (@search_composes_with_filters Reference.runtime Sample.composite
                      Sample.composite_filter "acme" Sample.acme_java Hq Hs Hne)).
    vm_compute. reflexivity. }
  rewrite (proj1 (@search_composes_with_filters Reference.runtime Sample.composite
                    Sample.composite_filter "acme" Sample.other_active Hq Hs Hne)).
  vm_compute. reflexivity.
Defined.

(** ** Job creation (C9) *)

(** C9: a POST /jobs body that omits [requirements], [responsibilities],
    [requiredSkills] or [benefits] is answered with 400 and no job is
    stored: the handler calls [split] on the missing value. *)
Theorem post_jobs_missing_sequence_field `{Runtime}
  (envs : nat -> Env) (body : gmap string jsval) (w : World) (k : string) :
  k ∈ ["requirements"; "responsibilities"; "requiredSkills"; "benefits"] ->
  body !! k = None ->
  (run envs (post_jobs body) w).1 = w
  /\ status (run envs (post_jobs body) w).2 = 400%N.
Proof.
  intros Hk Hmissing.
  assert (Hsplit : exists e, array_or_split (body_get body k) = inl e).
  { unfold body_get. rewrite Hmissing. by eexists. }
  destruct Hsplit as [e Hsplit]. unfold post_jobs.
  destruct (array_or_split (body_get body "requirements")) eqn:E1; cbn [bindE]; [done|].
  destruct (array_or_split (body_get body "responsibilities")) eqn:E2; cbn [bindE]; [done|].
  destruct (array_or_split (body_get body "requiredSkills")) eqn:E3; cbn [bindE]; [done|].
  destruct (array_or_split (body_get body "benefits")) eqn:E4; cbn [bindE]; [done|].
  exfalso. rewrite !elem_of_cons in Hk.
  destruct Hk as [->|[->|[->|[->|Hk]]]]; [congruence..|by apply elem_of_nil in Hk].
Qed.

Lemma post_jobs_missing_sequence_field_witness :
  fst (Sample.handle (@post_jobs Reference.runtime Sample.no_benefits) Sample.empty)
  = Sample.empty
  /\ status (snd (Sample.handle (@post_jobs Reference.runtime Sample.no_benefits)
                    Sample.empty)) = 400%N.
Proof.
  apply (@post_jobs_missing_sequence_field Reference.runtime Sample.envs Sample.no_benefits
           Sample.empty "benefits").
  - vm_compute. repeat constructor.
  - vm_compute. reflexivity.
Defined.

(** ** Identifier lookups (C6) *)

Section Lookups.
Context `{Runtime}.

Lemma get_job_malformed_id envs id w :
  objectid_valid id = false ->
  run envs (get_job id) w = (w, failure 400 "Invalid job ID format").
Proof.
  intros Hid. cbn. unfold model_findByIdAndUpdate_inc, with_id. by rewrite Hid.
Qed.

Lemma get_candidate_malformed_id envs id w :
  objectid_valid id = false ->
  (run envs (get_candidate id) w).1 = w /\ status (run envs (get_candidate id) w).2 = 500%N.
Proof. intros Hid. cbn. unfold model_findById, with_id. by rewrite Hid. Qed.

Lemma get_hotlist_malformed_id envs id w :
  objectid_valid id = false ->
  (run envs (get_hotlist id) w).1 = w /\ status (run envs (get_hotlist id) w).2 = 500%N.
Proof. intros Hid. cbn. unfold model_findById_populate, with_id. by rewrite Hid. Qed.

Lemma apply_job_malformed_id envs id w :
  objectid_valid id = false ->
  (run envs (apply_job id) w).1 = w /\ status (run envs (apply_job id) w).2 = 500%N.
Proof. intros Hid. cbn. unfold model_findByIdAndUpdate_inc, with_id. by rewrite Hid. Qed.

Lemma get_job_unknown_id envs id w :
  objectid_valid id = true -> db_up (envs 0%nat) = true ->
  find_by_id id (jobs w) = None ->
  run envs (get_job id) w = (w, failure 404 "Job not found").
Proof.
  intros Hid Hup Hnone. unfold get_job. cbn [run exec].
  unfold model_findByIdAndUpdate_inc, with_id, with_store.
  rewrite Hid, Hup. cbn [docs_of collection Job]. by rewrite Hnone.
Qed.
End Lookups.

(** C6: the malformed identifier ["123"] is answered with 400 by
    GET /jobs/:id only; GET /candidates/:id and GET /hotlist/:id answer it
    with 500, while a well-formed unknown job identifier gets 404. *)
Theorem malformed_id_statuses (envs : nat -> Env) (w : World) :
  status (@run Reference.runtime _ envs (@get_job Reference.runtime "123") w).2 = 400%N
  /\ status (@run Reference.runtime _ envs (get_candidate "123") w).2 = 500%N
  /\ status (@run Reference.runtime _ envs (get_hotlist "123") w).2 = 500%N
  /\ status (@run Reference.runtime _ Sample.envs
               (@get_job Reference.runtime "65f0000000000000000000bb") Sample.one_job).2
     = 404%N.
Proof.
  split; [|split; [|split]].
  - by rewrite (@get_job_malformed_id Reference.runtime).
  - by apply (@get_candidate_malformed_id Reference.runtime).
  - by apply (@get_hotlist_malformed_id Reference.runtime).
  - vm_compute. reflexivity.
Qed.

(** ** Resume upload (C7, C1) *)

Section UploadProperties.
Context `{Runtime}.

Lemma fileFilter_acceptable (part : Upload.FilePart) :
  Upload.fieldname part = "resumeFile" ->
  storable_resume part = true ->
  Upload.fileFilter part = inr true /\ (Upload.limits_fileSize <=? Upload.size part)%N = false.
Proof.
  unfold storable_resume, Upload.fileFilter. intros -> [Hmime Hsize]%andb_true_iff.
  rewrite Hmime. split; [done|].
  apply N.leb_gt. by apply N.ltb_lt in Hsize.
Qed.

(** A storable resume is stored under the uploads directory. *)
Lemma upload_single_acceptable (e : Env) (part : Upload.FilePart) (w : World) :
  Upload.fieldname part = "resumeFile" ->
  storable_resume part = true ->
  exists file,
    Upload.single e "resumeFile" (Some part) w
    = (set_uploads ({[Upload.path file]} ∪ uploads w) w, inr (Some file))
    /\ Upload.path file
       = Upload.uploadDir ++ "/" ++ Upload.storage_filename (now e) part.
Proof.
  intros Hfield Hok. destruct (fileFilter_acceptable part Hfield Hok) as [Hf Hs].
  unfold Upload.single. rewrite Hfield, Hf, Hs. cbn [String.eqb Ascii.eqb Bool.eqb negb].
  eexists. split; reflexivity.
Qed.

(** Anything else is refused with an error that carries no status, and
    nothing is left in the uploads directory. *)
Lemma upload_single_rejected (e : Env) (part : Upload.FilePart) (w : World) :
  Upload.fieldname part = "resumeFile" ->
  acceptable_resume part = false ->
  exists err,
    Upload.single e "resumeFile" (Some part) w = (w, inl err) /\ err_status err = None.
Proof.
  unfold acceptable_resume, Upload.single, Upload.fileFilter. intros -> Hno.
  cbn [String.eqb Ascii.eqb Bool.eqb negb].
  destruct (_ || _) eqn:Hmime in Hno |- *.
  - cbn [andb] in Hno. apply N.leb_gt in Hno.
    assert (Hlt : (Upload.limits_fileSize <=? Upload.size part)%N = true)
      by (apply N.leb_le; unfold Upload.limits_fileSize; lia).
    rewrite Hlt. by eexists.
  - by eexists.
Qed.

Lemma model_save_error_unchanged (e : Env) (m : Model) init (w w' : World) err :
  model_save e m init w = (w', inl err) -> w' = w.
Proof.
  unfold model_save. destruct (validate_paths _ _ _); [by intros [= <-]|].
  destruct (negb (db_up e)); [by intros [= <-]|].
  destruct (_ || _); [by intros [= <-]|done].
Qed.

Lemma upload_single_stored (e : Env) part (w w1 : World) file :
  Upload.single e "resumeFile" (Some part) w = (w1, inr (Some file)) ->
  w1 = set_uploads ({[Upload.path file]} ∪ uploads w) w.
Proof.
  unfold Upload.single.
  destruct (negb _); [done|]. destruct (Upload.fileFilter part) as [|[]]; [done| |done].
  destruct (_ <=? _)%N; [done|]. by intros [= <- <-].
Qed.
End UploadProperties.

(** C7: a resume whose MIME type is not one of the three accepted types, or
    which is larger than 5 MiB, leaves no file in the uploads directory,
    but the request is answered with 500, not 400: Multer hands the error
    to [next] and the application registers no error handler. *)
Theorem rejected_upload_is_500 `{Runtime}
  (envs : nat -> Env) (body : gmap string jsval) (part : Upload.FilePart) (w : World) :
  Upload.fieldname part = "resumeFile" ->
  acceptable_resume part = false ->
  (run envs (post_candidate_with_resume body (Some part)) w).1 = w
  /\ status (run envs (post_candidate_with_resume body (Some part)) w).2 = 500%N.
Proof.
  intros Hfield Hno.
  destruct (upload_single_rejected (envs 0%nat) part w Hfield Hno) as (err & Hsingle & Hstatus).
  unfold post_candidate_with_resume. cbn [run exec]. rewrite Hsingle. cbn [fst snd run].
  unfold express_default_error_handler. by rewrite Hstatus.
Qed.

Lemma rejected_upload_is_500_witness :
  fst (Sample.handle (@post_candidate_with_resume Reference.runtime Sample.no_email
                        (Some Sample.png)) Sample.empty) = Sample.empty
  /\ status (snd (Sample.handle (@post_candidate_with_resume Reference.runtime Sample.no_email
                                   (Some Sample.png)) Sample.empty)) = 500%N.
Proof.
  apply (@rejected_upload_is_500 Reference.runtime Sample.envs Sample.no_email Sample.png
           Sample.empty).
  - reflexivity.
  - vm_compute. reflexivity.
Defined.

(** C1: when the uploaded file has been accepted and written and the save
    of the candidate fails, the handler unlinks the file and then answers
    with 400 and the error's message: the file is in the uploads directory
    after the upload and no longer there when the response is returned, and
    no candidate has been stored. *)
Theorem failed_save_removes_upload `{Runtime}
  (envs : nat -> Env) (body : gmap string jsval) (part : Upload.FilePart)
  (file : Upload.File) (w w1 w2 : World) (err : Error) :
  Upload.single (envs 0%nat) "resumeFile" (Some part) w = (w1, inr (Some file)) ->
  model_save (envs 1%nat) Candidate (candidate_init body (Some file)) w1 = (w2, inl err) ->
  let out := run envs (post_candidate_with_resume body (Some part)) w in
  snd out = message_only 400 (err_message err)
  /\ fst out = fst (Upload.unlink (Upload.path file) w1)
  /\ Upload.path file ∈ uploads w1
  /\ (Upload.path file ∉ uploads (fst out))
  /\ candidates (fst out) = candidates w.
Proof.
  intros Hup Hsave out.
  pose proof (model_save_error_unchanged _ _ _ _ _ _ Hsave) as ->.
  pose proof (upload_single_stored _ _ _ _ _ Hup) as Hw1.
  assert (Hin : Upload.path file ∈ uploads w1) by (rewrite Hw1; cbn; set_solver).
  assert (Hout : out = ((Upload.unlink (Upload.path file) w1).1,
                        message_only 400 (err_message err))).
  { unfold out, post_candidate_with_resume. cbn [run exec]. rewrite Hup. cbn [fst snd].
    unfold candidate_with_resume. cbn [run exec]. rewrite Hsave. reflexivity. }
  rewrite Hout. cbn [fst snd].
  split; [reflexivity|]. split; [reflexivity|]. split; [exact Hin|].
  unfold Upload.unlink. rewrite bool_decide_eq_true_2 by done. cbn [fst].
  split; [|by rewrite Hw1].
  cbn [uploads set_uploads]. apply not_elem_of_difference. right. by apply elem_of_singleton.
Qed.

Lemma failed_save_removes_upload_witness :
  status (snd (Sample.handle (@post_candidate_with_resume Reference.runtime Sample.no_email
                                (Some Sample.pdf)) Sample.empty)) = 400%N
  /\ ("uploads/5000-cv.pdf" ∉
        uploads (fst (Sample.handle (@post_candidate_with_resume Reference.runtime
                                       Sample.no_email (Some Sample.pdf)) Sample.empty))).
Proof.
  pose proof (@failed_save_removes_upload Reference.runtime Sample.envs Sample.no_email
    Sample.pdf (Upload.mkFile "5000-cv.pdf" "uploads/5000-cv.pdf" "application/pdf" 2048)
    Sample.empty (mkWorld [] [] [] {["uploads/5000-cv.pdf"]}) (mkWorld [] [] [] {["uploads/5000-cv.pdf"]})
    (ValidationError "Path `email` is required.")) as Hw.
  cbv zeta in Hw.
  destruct Hw as (Hresp & _ & _ & Hgone & _).
  - vm_compute. reflexivity.
  - vm_compute. reflexivity.
  - unfold Sample.handle. split; [by rewrite Hresp|exact Hgone].
Defined.

(** ** Counter increments (C2) *)

Section Counters.
Context `{Runtime}.

Lemma find_by_id_has_id id (l : list Doc) d : find_by_id id l = Some d -> has_id id d = true.
Proof. unfold find_by_id. intros Hf. by apply List.find_some in Hf as [_ Hid]. Qed.

Lemma find_replace_by_id id (d d' : Doc) (l : list Doc) :
  find_by_id id l = Some d -> has_id id d' = true ->
  find_by_id id (replace_by_id id d' l) = Some d'.
Proof.
  unfold find_by_id. intros Hfind Hid. induction l as [|x l IH]; [done|].
  cbn [List.find replace_by_id] in *. destruct (has_id id x) eqn:Hx.
  - cbn [List.find]. by rewrite Hid.
  - cbn [List.find]. rewrite Hx. by apply IH.
Qed.

Lemma has_id_insert_ne id k v (d : Doc) : k <> "_id" -> has_id id (<[k := v]> d) = has_id id d.
Proof. intros Hk. unfold has_id, str_at. by rewrite lookup_insert_ne. Qed.

Lemma counter_replace (k id : string) (w : World) (d d' : Doc) :
  find_by_id id (jobs w) = Some d -> has_id id d' = true ->
  counter k id (set_docs Jobs (replace_by_id id d' (jobs w)) w)
  = match d' !! k with Some (VNum n) => Some n | _ => None end.
Proof.
  intros Hfind Hid. unfold counter. cbn [set_docs jobs].
  by rewrite (find_replace_by_id id d d').
Qed.

(** The find-and-modify either fails and changes nothing, or adds the
    amount to the one path of the one document. *)
Lemma findByIdAndUpdate_inc_counter e (id k : string) select (w : World) (n : Z) :
  k <> "_id" ->
  counter k id w = Some n ->
  let out := model_findByIdAndUpdate_inc e Job id k 1 select w in
  ((exists d, out.2 = inr (Some d))
   /\ counter k id out.1 = Some (n + 1)%Z
   /\ forall k', k' <> k -> counter k' id out.1 = counter k' id w)
  \/ ((exists err, out.2 = inl err) /\ out.1 = w).
Proof.
  intros Hk Hc. unfold model_findByIdAndUpdate_inc, with_id, with_store.
  destruct (objectid_valid id); [|right; eauto].
  destruct (db_up e); [|right; eauto].
  cbn [docs_of collection Job]. unfold counter in Hc.
  destruct (find_by_id id (jobs w)) as [d|] eqn:Hfind; [|done].
  unfold inc_path. destruct (d !! k) as [[]|] eqn:Hd; try done.
  injection Hc as ->. left. cbn [fst snd].
  assert (Hid : has_id id (<[k := VNum (n + 1)]> d) = true).
  { rewrite has_id_insert_ne by done. by apply (find_by_id_has_id id (jobs w)). }
  split; [eauto|]. split.
  - rewrite (counter_replace k id w d) by done. by rewrite lookup_insert_eq.
  - intros k' Hk'. rewrite (counter_replace k' id w d) by done.
    rewrite lookup_insert_ne by done. unfold counter. by rewrite Hfind.
Qed.

Lemma advance_get_job e id w n :
  counter "views" id w = Some n -> counted "views" id w n (advance e w (get_job id)).
Proof.
  intros Hc. unfold get_job, advance. cbn [exec fst snd].
  destruct (findByIdAndUpdate_inc_counter e id "views" ["__v"] w n) as
    [([d Hd] & Hv & Ho)|([err He] & Hw)]; [done|done|..]; eexists; (split; [reflexivity|]).
  - left. rewrite Hd. done.
  - right. rewrite He. split; [|done]. unfold failure, failure_detail.
    by destruct (String.eqb _ _).
Qed.

Lemma advance_apply_job e id w n :
  counter "applications" id w = Some n ->
  counted "applications" id w n (advance e w (apply_job id)).
Proof.
  intros Hc. unfold apply_job, advance. cbn [exec fst snd].
  destruct (findByIdAndUpdate_inc_counter e id "applications" ["__v"] w n) as
    [([d Hd] & Hv & Ho)|([err He] & Hw)]; [done|done|..]; eexists; (split; [reflexivity|]).
  - left. rewrite Hd. done.
  - right. rewrite He. done.
Qed.

Lemma successes_app (l1 l2 : list (Prog Response)) :
  successes (l1 ++ l2) = (successes l1 + successes l2)%nat.
Proof. unfold successes. by rewrite List.filter_app, length_app. Qed.

Lemma successes_insert (l : list (Prog Response)) i p p' :
  l !! i = Some p -> succeeded p = false ->
  successes (<[i := p']> l) = (successes l + if succeeded p' then 1 else 0)%nat.
Proof.
  revert i. induction l as [|x l IH]; intros [|i] Hl Hp; try done.
  - cbn in Hl. injection Hl as ->. unfold successes. cbn. rewrite Hp.
    destruct (succeeded p'); cbn; lia.
  - cbn in Hl. specialize (IH i Hl Hp).
    change (<[S i := p']> (x :: l)) with (x :: <[i := p']> l).
    unfold successes in *. cbn [List.filter].
    destruct (succeeded x); cbn [length]; rewrite IH; lia.
Qed.

Lemma successes_replicate_waiting n (p : Prog Response) :
  succeeded p = false -> successes (replicate n p) = 0%nat.
Proof.
  intros Hp. unfold successes. induction n as [|n IH]; [done|]. cbn. by rewrite Hp.
Qed.

Lemma not_finished_not_succeeded (p : Prog Response) : ~ finished p -> succeeded p = false.
Proof. destruct p; cbn; [tauto|done]. Qed.

Lemma successes_all (l : list (Prog Response)) :
  Forall (fun p => succeeded p = true) l -> successes l = length l.
Proof.
  unfold successes. induction 1 as [|p l Hp _ IH]; [done|].
  cbn [List.filter]. rewrite Hp. cbn [length]. by rewrite IH.
Qed.
End Counters.

Section Interleaving.
Context `{Runtime}.

Lemma counters_track_step id n m v a s s' :
  counters_track id n m v a s -> step s s' -> counters_track id n m v a s'.
Proof.
  intros (gets & applies & Hpool & Hlen & Hlen' & Hgets & Happlies & Hviews & Happs) Hstep.
  inversion Hstep as [e i p w pool Hi Hwaiting]; subst s s'. cbn [fst snd] in *. subst pool.
  pose proof (not_finished_not_succeeded p Hwaiting) as Hns.
  destruct (decide (i < length gets)%nat) as [Hlt|Hge].
  - rewrite lookup_app_l in Hi by done.
    destruct (Forall_lookup_1 _ _ _ _ Hgets Hi) as [->|Hfin]; [|done].
    destruct (advance_get_job e id w _ Hviews) as (resp & Hresp & Hcase).
    rewrite Hresp. exists (<[i := Ret resp]> gets), applies. cbn [fst snd].
    rewrite insert_app_l, length_insert by done.
    split; [done|]. split; [done|]. split; [done|].
    split; [apply Forall_insert; [done|by right]|]. split; [done|].
    rewrite (successes_insert gets i _ _ Hi Hns). cbn [succeeded].
    destruct Hcase as [(-> & Hv & Hother)|(-> & ->)].
    + split; [rewrite Hv; f_equal; lia|]. by rewrite Hother.
    + split; [rewrite Hviews; f_equal; lia|done].
  - rewrite lookup_app_r in Hi by lia.
    destruct (Forall_lookup_1 _ _ _ _ Happlies Hi) as [->|Hfin]; [|done].
    destruct (advance_apply_job e id w _ Happs) as (resp & Hresp & Hcase).
    rewrite Hresp. exists gets, (<[(i - length gets)%nat := Ret resp]> applies).
    cbn [fst snd]. rewrite insert_app_r_alt, length_insert by lia.
    split; [done|]. split; [done|]. split; [done|]. split; [done|].
    split; [apply Forall_insert; [done|by right]|].
    rewrite (successes_insert applies _ _ _ Hi Hns). cbn [succeeded].
    destruct Hcase as [(-> & Ha & Hother)|(-> & ->)].
    + split; [by rewrite Hother|]. rewrite Ha. f_equal. lia.
    + split; [done|]. rewrite Happs. f_equal. lia.
Qed.

Lemma counters_track_steps id n m v a s s' :
  counters_track id n m v a s -> rtc step s s' -> counters_track id n m v a s'.
Proof. intros Hs Hsteps. induction Hsteps; eauto using counters_track_step. Qed.

Lemma counters_track_initial id n m v a w :
  counter "views" id w = Some v ->
  counter "applications" id w = Some a ->
  counters_track id n m v a
    (w, (replicate n (get_job id) ++ replicate m (apply_job id))%list).
Proof.
  intros Hv Ha. exists (replicate n (get_job id)), (replicate m (apply_job id)).
  rewrite !successes_replicate_waiting by done. rewrite !Z.add_0_r, !length_replicate.
  repeat split; try done; apply Forall_replicate; by left.
Qed.

(** Any order of serving the requests is an interleaving. *)
Lemma schedule_steps {R} (order : list (Env * nat)) (s : World * list (Prog R)) :
  rtc step s (schedule order s).
Proof.
  revert s. induction order as [|[e i] rest IH]; intros [w pool]; cbn [schedule fst snd].
  - apply rtc_refl.
  - destruct (pool !! i) as [p|] eqn:Hi; [|apply IH].
    destruct p as [r|X op k].
    + cbn [advance fst snd]. rewrite list_insert_id by done. apply IH.
    + eapply rtc_l; [|apply IH].
      apply (step_at e i (Await op k) w pool Hi). cbn [finished]. tauto.
Qed.
End Interleaving.

(** C2: a detail fetch and an apply request are each one indivisible
    find-and-modify operation that adds 1 to its counter; so in every
    interleaving of [n] fetches and [m] apply requests for one job, once all
    are answered, [views] has grown by exactly the number of fetches answered
    with 200 and [applications] by exactly the number of apply requests
    answered with 200: by [n] and [m] when every request succeeded. No
    increment is lost. *)
Theorem concurrent_increments `{Runtime}
  (id : string) (n m : nat) (v a : Z) (w w' : World) (pool' : list (Prog Response)) :
  counter "views" id w = Some v ->
  counter "applications" id w = Some a ->
  rtc step (w, (replicate n (get_job id) ++ replicate m (apply_job id))%list) (w', pool') ->
  Forall finished pool' ->
  counter "views" id w' = Some (v + Z.of_nat (successes (take n pool')))%Z
  /\ counter "applications" id w' = Some (a + Z.of_nat (successes (drop n pool')))%Z
  /\ (Forall (fun p => succeeded p = true) pool' ->
      counter "views" id w' = Some (v + Z.of_nat n)%Z
      /\ counter "applications" id w' = Some (a + Z.of_nat m)%Z)
  /\ (forall e w1, finished (advance e w1 (get_job id)).2
                  /\ finished (advance e w1 (apply_job id)).2).
Proof.
  intros Hv Ha Hsteps Hfin.
  destruct (counters_track_steps id n m v a _ _
              (counters_track_initial id n m v a w Hv Ha) Hsteps)
    as (gets & applies & Hpool & Hlen & Hlen' & _ & _ & Hviews & Happs).
  cbn [fst snd] in *. subst pool'.
  rewrite take_app_length', drop_app_length' by done.
  split; [done|]. split; [done|]. split; [|intros e w1; by split].
  intros [Hg Hap]%Forall_app.
  rewrite Hviews, Happs, !successes_all by done. by rewrite Hlen, Hlen'.
Qed.

Lemma concurrent_increments_witness :
  counter "views" "65f0000000000000000000aa" (fst Sample.served) = Some 2%Z
  /\ counter "applications" "65f0000000000000000000aa" (fst Sample.served) = Some 1%Z.
Proof.
  destruct (@concurrent_increments Reference.runtime "65f0000000000000000000aa" 2 1 0 0
              Sample.one_job (fst Sample.served) (snd Sample.served)) as (Hv & Ha & _ & _).
  - vm_compute. reflexivity.
  - vm_compute. reflexivity.
  - change (replicate 2 (@get_job Reference.runtime "65f0000000000000000000aa") ++
            replicate 1 (apply_job "65f0000000000000000000aa"))%list with Sample.in_flight.
    rewrite <- surjective_pairing. apply (@schedule_steps Reference.runtime).
  - vm_compute. repeat constructor.
  - split; [rewrite Hv|rewrite Ha]; vm_compute; reflexivity.
Defined.

(** ** The updatedAt timestamp (C8) *)

Section Timestamps.
Context `{Runtime}.

Lemma validate_paths_lookup_None t init (ds : list PathDecl) (doc : Doc) (k : string) :
  validate_paths t init ds = inr doc ->
  ~ In k (List.map (fun d => path_key (path d)) ds) ->
  doc !! k = None.
Proof.
  revert doc. induction ds as [|d ds IH]; intros doc; cbn [validate_paths List.map].
  - by intros [= <-] _.
  - destruct (validate_path t init d) as [|ov]; [done|].
    destruct (validate_paths t init ds) as [|doc']; [done|].
    intros [= <-] Hk. cbn [In] in Hk.
    assert (Hdoc' : doc' !! k = None) by (apply IH; [done|tauto]).
    destruct ov; [|done]. rewrite lookup_insert_ne; [done|tauto].
Qed.

Lemma model_save_inr e (m : Model) init (w w' : World) (doc : Doc) :
  model_save e m init w = (w', inr doc) ->
  exists doc0,
    validate_paths (now e) init (schema m) = inr doc0
    /\ doc = pre_save m (now e) (<["_id" := VStr (new_id e)]> (<["__v" := VNum 0]> doc0))
    /\ w' = set_docs (collection m) (docs_of (collection m) w ++ [doc])%list w.
Proof.
  unfold model_save. destruct (validate_paths _ _ _) as [|doc0]; [done|].
  destruct (negb (db_up e)); [done|]. destruct (_ || _); [done|].
  intros [= <- <-]. by exists doc0.
Qed.

Lemma docs_of_set_docs c l w : docs_of c (set_docs c l w) = l.
Proof. by destruct c. Qed.

(** The increment of one path leaves every other path of the stored
    document as it was. *)
Lemma findByIdAndUpdate_inc_keeps e (id k k' : string) select (w w' : World) r :
  k <> "_id" -> k' <> k ->
  model_findByIdAndUpdate_inc e Job id k 1 select w = (w', inr (Some r)) ->
  path_of Jobs k' id w' = path_of Jobs k' id w.
Proof.
  intros Hk Hk'. unfold model_findByIdAndUpdate_inc, with_id, with_store.
  destruct (objectid_valid id); [|done]. destruct (db_up e); [|done].
  cbn [docs_of collection Job].
  destruct (find_by_id id (jobs w)) as [d|] eqn:Hfind; [|done].
  destruct (inc_path k 1 d) as [d'|] eqn:Hinc; [|done].
  intros [= <- _]. unfold path_of. cbn [docs_of set_docs jobs]. rewrite Hfind.
  assert (Hd' : d' !! k' = d !! k' /\ has_id id d' = true).
  { unfold inc_path in Hinc. pose proof (find_by_id_has_id id _ d Hfind) as Hid.
    destruct (d !! k) as [[]|]; try done; injection Hinc as <-;
      by rewrite lookup_insert_ne, has_id_insert_ne. }
  destruct Hd' as [Hsame Hid]. by rewrite (find_replace_by_id id d d').
Qed.
End Timestamps.

(** C8, as stated, fails: a detail fetch at time 5000 increments [views] of
    the stored job and leaves its [updatedAt] at 1000; and a saved Hotlist
    has no [updatedAt] at all. *)
Lemma updatedAt_not_always_refreshed :
  (let out := Sample.handle (@get_job Reference.runtime "65f0000000000000000000aa")
                Sample.one_job in
   status (snd out) = 200%N
   /\ now (Sample.envs 0%nat) = 5000%N
   /\ counter "views" "65f0000000000000000000aa" (fst out) = Some 1%Z
   /\ path_of Jobs "updatedAt" "65f0000000000000000000aa" (fst out)
      = Some (VDate (Some 1000%N))
   /\ path_of Jobs "updatedAt" "65f0000000000000000000aa" (fst out)
      <> Some (VDate (Some (now (Sample.envs 0%nat)))))
  /\ (let out := @model_save Reference.runtime (Sample.env 5000) Hotlist
                   (VObj [("name", VStr "A-list")]) Sample.empty in
      exists doc, snd out = inr doc /\ hotlists (fst out) = [doc]
                  /\ doc !! "updatedAt" = None).
Proof.
  cbv zeta. split.
  - repeat split; try (vm_compute; reflexivity). vm_compute. discriminate.
  - eexists. split; [vm_compute; reflexivity|]. split; vm_compute; reflexivity.
Qed.

(** C8, amended: every successful save of a Job or of a Candidate stores
    the document with [updatedAt] set to the current time by the
    [pre('save')] hook, after validation and immediately before the insert;
    a Hotlist document has no [updatedAt]. *)
Theorem updatedAt_set_by_save `{Runtime}
  (e : Env) (m : Model) (init : jsval) (w w' : World) (doc : Doc) :
  model_save e m init w = (w', inr doc) ->
  docs_of (collection m) w' = (docs_of (collection m) w ++ [doc])%list
  /\ (m = Job \/ m = Candidate -> doc !! "updatedAt" = Some (VDate (Some (now e))))
  /\ (m = Hotlist -> doc !! "updatedAt" = None).
Proof.
  intros Hsave. destruct (model_save_inr _ _ _ _ _ _ Hsave) as (doc0 & Hvalid & -> & ->).
  split; [apply docs_of_set_docs|]. split.
  - intros [->| ->]; cbn [pre_save pre_save_sets_updatedAt Job Candidate];
      apply lookup_insert_eq.
  - intros ->. cbn [pre_save pre_save_sets_updatedAt Hotlist]. rewrite !lookup_insert_ne by done.
    apply (validate_paths_lookup_None _ _ _ _ _ Hvalid).
    cbn. intros [?|[?|[?|[?|[]]]]]; discriminate.
Qed.

Lemma updatedAt_set_by_save_witness :
  exists w' doc,
    @model_save Reference.runtime (Sample.env 5000) Job Sample.job_init Sample.empty
    = (w', inr doc)
    /\ jobs w' = [doc]
    /\ doc !! "updatedAt" = Some (VDate (Some 5000%N)).
Proof.
  destruct (@model_save Reference.runtime (Sample.env 5000) Job Sample.job_init Sample.empty)
    as [w' [err|doc]] eqn:Hsave.
  - vm_compute in Hsave. discriminate Hsave.
  - exists w', doc. split; [reflexivity|].
    destruct (@updatedAt_set_by_save Reference.runtime _ _ _ _ _ _ Hsave) as (Hdocs & Hat & _).
    split; [exact Hdocs|]. apply Hat. by left.
Defined.

(** ** Candidate search (C10) *)

Section Search.
Context `{Runtime}.

Lemma exclude_lookup paths (d : Doc) k :
  excluded paths k = false -> exclude paths d !! k = d !! k.
Proof.
  intros Hk. unfold exclude. rewrite map_lookup_filter.
  destruct (d !! k) as [v|]; [|done]. cbn. by rewrite option_guard_True.
Qed.

Lemma exclude_lookup_excluded paths (d : Doc) k :
  excluded paths k = true -> exclude paths d !! k = None.
Proof.
  intros Hk. unfold exclude. rewrite map_lookup_filter.
  destruct (d !! k) as [v|]; [|done]. cbn. rewrite option_guard_False; [done|].
  cbn. by rewrite Hk.
Qed.

Lemma exclude_idem paths (d : Doc) : exclude paths (exclude paths d) = exclude paths d.
Proof.
  apply map_eq. intros k. destruct (excluded paths k) eqn:Hk.
  - by rewrite !exclude_lookup_excluded.
  - by rewrite !exclude_lookup.
Qed.

Lemma matches_singleton k c (d : Doc) : matches {[k := c]} d = cond_holds d k c.
Proof.
  unfold matches. apply eq_true_iff_eq. rewrite bool_decide_eq_true.
  apply (map_Forall_singleton (fun k c => cond_holds d k c = true)).
Qed.

Lemma candidate_search_ignores_resumeFile (q : string) (d : Doc) :
  matches (candidate_search_query q) (exclude ["resumeFile"] d)
  = matches (candidate_search_query q) d.
Proof.
  unfold candidate_search_query. rewrite !matches_singleton.
  cbn [cond_holds existsb fst snd]. by rewrite !exclude_lookup.
Qed.

Lemma date_key_updatedAt_exclude (d : Doc) :
  date_key "updatedAt" (exclude ["resumeFile"] d) = date_key "updatedAt" d.
Proof. unfold date_key. by rewrite exclude_lookup. Qed.

Lemma filter_map_commute {A} (f : A -> bool) (g : A -> A) (l : list A) :
  (forall x, f (g x) = f x) -> List.filter f (List.map g l) = List.map g (List.filter f l).
Proof.
  intros Hfg. induction l as [|x l IH]; [done|].
  cbn [List.map List.filter]. rewrite Hfg. destruct (f x); cbn [List.map]; by rewrite IH.
Qed.

Lemma insert_desc_map {A} (key : A -> N) (g : A -> A) x (l : list A) :
  (forall y, key (g y) = key y) ->
  insert_desc key (g x) (List.map g l) = List.map g (insert_desc key x l).
Proof.
  intros Hkey. induction l as [|y l IH]; [done|].
  cbn [List.map insert_desc]. rewrite !Hkey.
  destruct (key x <? key y)%N; cbn [List.map]; [by rewrite IH|done].
Qed.

Lemma sort_desc_by_map {A} (key : A -> N) (g : A -> A) (l : list A) :
  (forall y, key (g y) = key y) ->
  sort_desc_by key (List.map g l) = List.map g (sort_desc_by key l).
Proof.
  intros Hkey. unfold sort_desc_by. induction l as [|x l IH]; [done|].
  cbn [List.map fold_right]. rewrite IH. by apply insert_desc_map.
Qed.

(** What the search returns is a function of the candidates without their
    [resumeFile]. *)
Lemma search_result_of_projection (q : string) (cs : list Doc) :
  let x := exclude ["resumeFile"] in
  List.map x (take 10 (sort_desc_by (date_key "updatedAt")
                         (List.filter (matches (candidate_search_query q)) cs)))
  = List.map x (take 10 (sort_desc_by (date_key "updatedAt")
                           (List.filter (matches (candidate_search_query q))
                              (List.map x cs)))).
Proof.
  intros x.
  rewrite (filter_map_commute _ x) by apply candidate_search_ignores_resumeFile.
  rewrite (sort_desc_by_map _ x) by apply date_key_updatedAt_exclude.
  rewrite List.firstn_map, List.map_map. apply List.map_ext. intros d.
  unfold x. by rewrite exclude_idem.
Qed.
End Search.

(** C10: the response of GET /candidates/search is the same for two stores
    whose candidates differ only in their [resumeFile] paths, for every
    query; and no document that the search returns has a path at or below
    [resumeFile]. *)
Theorem search_hides_resumeFile `{Runtime}
  (envs : nat -> Env) (query : gmap string string) (w1 w2 : World) :
  List.map (exclude ["resumeFile"]) (candidates w1)
  = List.map (exclude ["resumeFile"]) (candidates w2) ->
  snd (run envs (search_candidates query) w1) = snd (run envs (search_candidates query) w2)
  /\ forall q found,
       snd (model_find (envs 0%nat) Candidate (candidate_search_query q)
              candidate_search_options w1) = inr found ->
       Forall (fun d : Doc => forall k, under "resumeFile" k = true -> d !! k = None) found.
Proof.
  intros Hsame. split.
  - unfold search_candidates. destruct (query !! "q") as [q|]; [|done].
    destruct (JsString.truthy q); [|done].
    cbn [run exec snd fst]. unfold model_find, with_store.
    destruct (db_up (envs 0%nat)); [|done].
    destruct (negb (query_valid _)); [done|].
    cbn [snd fst sort_desc limit select_exclude candidate_search_options
         docs_of collection Candidate].
    rewrite (search_result_of_projection q (candidates w1)).
    rewrite (search_result_of_projection q (candidates w2)).
    cbv zeta. by rewrite Hsame.
  - intros q found. unfold model_find, with_store.
    destruct (db_up (envs 0%nat)); [|done].
    destruct (negb (query_valid _)); [done|].
    cbn [snd fst sort_desc limit select_exclude candidate_search_options].
    intros [= <-]. apply List.Forall_forall. intros d [d0 [<- _]]%in_map_iff k Hk.
    apply exclude_lookup_excluded. cbn [excluded existsb]. by rewrite Hk.
Qed.

Lemma search_hides_resumeFile_witness :
  snd (Sample.handle (@search_candidates Reference.runtime {["q" := "ann"]})
         (Sample.resume (VStr "uploads/1-cv.pdf")))
  = snd (Sample.handle (@search_candidates Reference.runtime {["q" := "ann"]})
           (Sample.resume VNull)).
Proof.
  apply (@search_hides_resumeFile Reference.runtime Sample.envs {["q" := "ann"]}
           (Sample.resume (VStr "uploads/1-cv.pdf")) (Sample.resume VNull)).
  vm_compute. reflexivity.
Defined.

(** ** Examples from the specification *)

Example split_keeps_empty_tokens : JsString.split "," "a,,b" = ["a"; ""; "b"].
Proof. reflexivity. Qed.

Example trim_strips_both_ends : JsString.trim "  go lang  " = "go lang".
Proof. reflexivity. Qed.

Example create_tokens_example : create_skill_tokens "go, RUST ,,x" = ["go"; "RUST"; "x"].
Proof. reflexivity. Qed.

Example location_is_a_substring_match :
  forall q, @build_jobs_query Reference.runtime {["location" := "springfield"]} = inr q ->
    @matches Reference.runtime q {["location" := VStr "Springfield, IL"]} = true.
Proof.
  intros q Hq. rewrite (@matches_build_jobs_query Reference.runtime _ _ _ Hq).
  vm_compute. reflexivity.
Qed.

Example requiredSkills_match_by_pattern :
  forall q, @build_jobs_query Reference.runtime {["requiredSkills" := "go,RUST"]} = inr q ->
    @matches Reference.runtime q
      {["requiredSkills" := VArr [VStr "Golang"; VStr "Rust Developer"]]} = true.
Proof.
  intros q Hq. rewrite (@matches_build_jobs_query Reference.runtime _ _ _ Hq).
  vm_compute. reflexivity.
Qed.

Example accepted_resume_is_stored_and_referenced :
  uploads (fst (Sample.handle (@post_candidate_with_resume Reference.runtime
                                 (<["email" := VStr "ann@example.com"]> Sample.no_email)
                                 (Some Sample.pdf)) Sample.empty))
  = {["uploads/5000-cv.pdf"]}
  /\ status (snd (Sample.handle (@post_candidate_with_resume Reference.runtime
                                   (<["email" := VStr "ann@example.com"]> Sample.no_email)
                                   (Some Sample.pdf)) Sample.empty)) = 201%N.
Proof. split; vm_compute; reflexivity. Qed.

(** * Further properties *)

(** ** Strings and tokens *)

Section Strings.

Lemma trimStart_clean (s : string) :
  match JsString.trimStart s with
  | String c _ => JsString.is_white_space c = false
  | EmptyString => True
  end.
Proof.
  induction s as [|c s IH]; [done|]. cbn [JsString.trimStart].
  by destruct (JsString.is_white_space c) eqn:Hc.
Qed.

Lemma trimStart_id (s : string) :
  match s with String c _ => JsString.is_white_space c = false | EmptyString => True end ->
  JsString.trimStart s = s.
Proof. destruct s as [|c s]; [done|]. cbn [JsString.trimStart]. by intros ->. Qed.

Lemma trimEnd_idem (s : string) : JsString.trimEnd (JsString.trimEnd s) = JsString.trimEnd s.
Proof.
  induction s as [|c s IH]; [done|]. cbn [JsString.trimEnd].
  destruct (JsString.is_white_space c && JsString.is_empty (JsString.trimEnd s)) eqn:Hc; [done|].
  cbn [JsString.trimEnd]. by rewrite IH, Hc.
Qed.

Lemma trimEnd_clean_start (s : string) :
  match s with String c _ => JsString.is_white_space c = false | EmptyString => True end ->
  match JsString.trimEnd s with
  | String c _ => JsString.is_white_space c = false
  | EmptyString => True
  end.
Proof.
  destruct s as [|c s]; [done|]. cbn [JsString.trimEnd]. intros Hc.
  rewrite Hc. cbn [andb]. exact Hc.
Qed.

Lemma trim_idem (s : string) : JsString.trim (JsString.trim s) = JsString.trim s.
Proof.
  unfold JsString.trim.
  rewrite (trimStart_id (JsString.trimEnd _)); [apply trimEnd_idem|].
  apply trimEnd_clean_start, trimStart_clean.
Qed.

Lemma occurs_trimStart c (s : string) :
  occurs c (JsString.trimStart s) = true -> occurs c s = true.
Proof.
  induction s as [|c' s IH]; [done|]. cbn [JsString.trimStart occurs].
  destruct (JsString.is_white_space c'); [|done].
  intros Ho. rewrite (IH Ho). apply orb_true_r.
Qed.

Lemma occurs_trimEnd c (s : string) :
  occurs c (JsString.trimEnd s) = true -> occurs c s = true.
Proof.
  induction s as [|c' s IH]; [done|]. cbn [JsString.trimEnd occurs].
  destruct (JsString.is_white_space c' && _); [done|]. cbn [occurs].
  intros [->|Ho]%orb_true_iff; [done|]. rewrite (IH Ho). apply orb_true_r.
Qed.

Lemma occurs_trim c (s : string) : occurs c (JsString.trim s) = true -> occurs c s = true.
Proof. unfold JsString.trim. intros Ho. by apply occurs_trimStart, occurs_trimEnd. Qed.

Lemma split_pieces_without_separator (sep : ascii) (s : string) :
  Forall (fun t => occurs sep t = false) (JsString.split sep s).
Proof.
  induction s as [|c s IH]; cbn [JsString.split]; [by repeat constructor|].
  destruct (Ascii.eqb c sep) eqn:Hc; [by constructor|].
  destruct (JsString.split sep s) as [|t ts]; [by repeat constructor; cbn; rewrite Hc|].
  apply Forall_cons in IH as [Ht Hts]. constructor; [|done]. cbn [occurs]. by rewrite Hc.
Qed.

Lemma split_nonempty (sep : ascii) (s : string) : JsString.split sep s <> [].
Proof.
  destruct s as [|c s]; cbn [JsString.split]; [done|].
  destruct (Ascii.eqb c sep); [done|]. by destruct (JsString.split sep s).
Qed.
End Strings.

(** X1: every skill token that the candidate-creation path derives from a
    comma-separated string is non-empty, has no white space at either end
    and contains no comma. *)
Theorem create_tokens_are_clean (skills : string) :
  Forall (fun t => t <> "" /\ trimmed t /\ occurs "," t = false) (create_skill_tokens skills).
Proof.
  unfold create_skill_tokens. apply List.Forall_forall. intros t [Ht Hne]%filter_In.
  apply in_map_iff in Ht as (piece & <- & Hpiece).
  split; [by intros Heq; rewrite Heq in Hne|]. split; [apply trim_idem|].
  destruct (occurs "," (JsString.trim piece)) eqn:Ho; [|done].
  apply occurs_trim in Ho.
  pose proof (split_pieces_without_separator "," skills) as Hall.
  rewrite List.Forall_forall in Hall. by rewrite (Hall piece Hpiece) in Ho.
Qed.

(** ** Upload file names *)

Section FileNames.

Lemma pretty_N_char_digit (x : N) : Reference.is_digit (pretty_N_char x) = true.
Proof. unfold pretty_N_char. by repeat case_match. Qed.

Lemma pretty_N_go_digits (x : N) (s : string) : all_digits s -> all_digits (pretty_N_go x s).
Proof.
  revert s. induction (N.lt_wf_0 x) as [x _ IH]; intros s Hs.
  assert (x = 0 \/ 0 < x)%N as [->|Hx] by lia; [by rewrite pretty_N_go_0|].
  rewrite pretty_N_go_step by done. apply IH; [by apply N.div_lt|].
  unfold all_digits. cbn [Reference.all_chars]. by rewrite pretty_N_char_digit.
Qed.

Lemma pretty_N_digits (x : N) : all_digits (pretty x).
Proof.
  unfold pretty, pretty_N. case_decide; [done|]. by apply pretty_N_go_digits.
Qed.

Lemma digits_dash_inj (d1 d2 r1 r2 : string) :
  all_digits d1 -> all_digits d2 ->
  d1 +:+ String "-" r1 = d2 +:+ String "-" r2 -> d1 = d2 /\ r1 = r2.
Proof.
  unfold all_digits. revert d2. induction d1 as [|c1 d1 IH]; intros [|c2 d2] H1 H2 Heq;
    cbn in *.
  - by injection Heq as ->.
  - injection Heq as <- _. by cbn in H2.
  - injection Heq as -> _. by cbn in H1.
  - injection Heq as -> Heq. apply andb_true_iff in H1 as [_ H1], H2 as [_ H2].
    destruct (IH d2 H1 H2 Heq) as [-> ->]. done.
Qed.
End FileNames.

(** X2: two uploads get the same stored file name only if they arrive in the
    same millisecond under the same original name. *)
Theorem storage_filename_collision (t1 t2 : N) (f1 f2 : Upload.FilePart) :
  Upload.storage_filename t1 f1 = Upload.storage_filename t2 f2 ->
  t1 = t2 /\ Upload.originalname f1 = Upload.originalname f2.
Proof.
  unfold Upload.storage_filename. intros Heq.
  destruct (digits_dash_inj (pretty t1) (pretty t2) (Upload.originalname f1)
              (Upload.originalname f2)) as [Ht Hn]; [apply pretty_N_digits..|exact Heq|].
  split; [|done]. by apply (inj pretty).
Qed.

Lemma storage_filename_collision_witness :
  5000%N = 5000%N /\ Upload.originalname Sample.pdf = Upload.originalname Sample.pdf.
Proof.
  apply (storage_filename_collision 5000 5000 Sample.pdf Sample.pdf). reflexivity.
Defined.

(** ** The job filter *)

Section JobFilter.
Context `{Runtime}.

Lemma RegExp_all_inl (patterns : list string) (fl : string) :
  (exists err, RegExp_all patterns fl = inl err)
  <-> Exists (fun p => regex_valid p = false) patterns.
Proof.
  induction patterns as [|p ps IH]; cbn [RegExp_all].
  - split; [by intros [? ?]|by intros ?%Exists_nil].
  - unfold RegExp_new. rewrite Exists_cons. destruct (regex_valid p); cbn [bindE].
    + destruct (RegExp_all ps fl) as [e|rs]; cbn [bindE].
      * split; [intros _; right; apply IH; eauto|eauto].
      * split; [by intros [? ?]|]. intros [?|Hex]; [done|].
        apply IH in Hex as [? ?]. done.
    + split; [by left|eauto].
Qed.

Lemma truthy_nonempty (s : string) : JsString.truthy s = true <-> s <> "".
Proof. by destruct s. Qed.

Lemma holds_if_supplied_delete (p k : string) (query : gmap string string) P :
  holds_if (supplied (query !! k)) P = true ->
  holds_if (supplied (delete p query !! k)) P = true.
Proof.
  destruct (decide (p = k)) as [->|Hne].
  - by rewrite lookup_delete_eq.
  - by rewrite lookup_delete_ne.
Qed.

Lemma holds_if_delete (p k : string) (query : gmap string string) P :
  holds_if (query !! k) P = true -> holds_if (delete p query !! k) P = true.
Proof.
  destruct (decide (p = k)) as [->|Hne].
  - by rewrite lookup_delete_eq.
  - by rewrite lookup_delete_ne.
Qed.

Lemma listing_predicate_delete (p : string) (query : gmap string string) (d : Doc) :
  listing_predicate query d = true -> listing_predicate (delete p query) d = true.
Proof.
  unfold listing_predicate, other_filters. rewrite !andb_true_iff.
  intros [[[[[[[H1 H2] H3] H4] H5] H6] H7] H8].
  repeat split; first [by apply holds_if_supplied_delete | by apply holds_if_delete].
Qed.
End JobFilter.

(** X3: a query parameter that the job filter does not read has no effect
    on the filter object, whatever its value. *)
Theorem unknown_parameter_is_ignored `{Runtime}
  (p v : string) (query : gmap string string) :
  p ∉ job_filter_params ->
  build_jobs_query (<[p := v]> query) = build_jobs_query query.
Proof.
  unfold job_filter_params. rewrite !not_elem_of_cons.
  intros (? & ? & ? & ? & ? & ? & ? & ? & _).
  unfold build_jobs_query, build_jobs_filters. by rewrite !lookup_insert_ne.
Qed.

Lemma unknown_parameter_is_ignored_witness :
  @build_jobs_query Reference.runtime (<["views" := "5"]> {["status" := "active"]})
  = @build_jobs_query Reference.runtime {["status" := "active"]}.
Proof.
  apply (@unknown_parameter_is_ignored Reference.runtime).
  unfold job_filter_params. rewrite !not_elem_of_cons.
  repeat split; try discriminate. apply not_elem_of_nil.
Defined.

(** X4: building the job filter fails exactly when [requiredSkills] is
    supplied non-empty and one of its comma-separated, trimmed pieces is not
    a valid regular expression. *)
Theorem build_jobs_query_fails_iff `{Runtime} (query : gmap string string) :
  (exists err, build_jobs_query query = inl err)
  <-> exists skills,
        query !! "requiredSkills" = Some skills
        /\ skills <> ""
        /\ Exists (fun t => regex_valid t = false) (filter_skill_tokens skills).
Proof.
  unfold build_jobs_query. destruct (query !! "requiredSkills") as [skills|].
  - destruct (JsString.truthy skills) eqn:Ht.
    + pose proof (RegExp_all_inl (filter_skill_tokens skills) "i") as Hall.
      destruct (RegExp_all (filter_skill_tokens skills) "i") as [e|res]; cbn [bindE].
      * split; [|eauto]. intros _. exists skills.
        split; [done|]. split; [by apply truthy_nonempty|]. apply Hall. eauto.
      * split; [by intros [? ?]|]. intros (skills' & [= <-] & _ & Hex).
        apply Hall in Hex as [? ?]. done.
    + split; [by intros [? ?]|]. intros (skills' & [= <-] & Hne & _).
      apply truthy_nonempty in Hne. congruence.
  - split; [by intros [? ?]|]. by intros (? & ? & _).
Qed.

(** X5: dropping a query parameter never narrows the listing: the filter
    still builds, and every job that matched before matches after. *)
Theorem dropping_a_filter_widens `{Runtime}
  (p : string) (query : gmap string string) (q : Query) :
  build_jobs_query query = inr q ->
  exists q', build_jobs_query (delete p query) = inr q'
             /\ forall job : Doc, matches q job = true -> matches q' job = true.
Proof.
  intros Hq.
  assert (Hq' : exists q', build_jobs_query (delete p query) = inr q').
  { revert Hq. unfold build_jobs_query. destruct (decide (p = "requiredSkills")) as [->|Hne].
    - rewrite lookup_delete_eq. eauto.
    - rewrite lookup_delete_ne by done.
      destruct (query !! "requiredSkills") as [skills|]; [|eauto].
      destruct (JsString.truthy skills); [|eauto].
      destruct (RegExp_all _ _); cbn [bindE]; [done|eauto]. }
  destruct Hq' as [q' Hq']. exists q'. split; [done|]. intros job.
  rewrite (matches_build_jobs_query _ _ _ Hq), (matches_build_jobs_query _ _ _ Hq').
  apply listing_predicate_delete.
Qed.

Lemma dropping_a_filter_widens_witness :
  exists q', @build_jobs_query Reference.runtime (delete "status" {["status" := "active"]})
             = inr q'
             /\ forall job : Doc,
                  @matches Reference.runtime {["status" := equals "active"]} job = true ->
                  @matches Reference.runtime q' job = true.
Proof.
  apply (@dropping_a_filter_widens Reference.runtime "status" {["status" := "active"]}).
  vm_compute. reflexivity.
Defined.

(** ** Sorted, limited finds *)

Section Sorting.
Context {A : Type} (key : A -> N).

Lemma insert_desc_perm (x : A) (l : list A) : insert_desc key x l ≡ₚ x :: l.
Proof.
  induction l as [|y l IH]; [done|]. cbn [insert_desc].
  destruct (key x <? key y)%N; [|done]. rewrite IH. apply perm_swap.
Qed.

Lemma sort_desc_by_perm (l : list A) : sort_desc_by key l ≡ₚ l.
Proof.
  unfold sort_desc_by. induction l as [|x l IH]; [done|].
  cbn [fold_right]. by rewrite insert_desc_perm, IH.
Qed.

Lemma insert_desc_newest_first (x : A) (l : list A) :
  newest_first key l -> newest_first key (insert_desc key x l).
Proof.
  unfold newest_first. induction l as [|y l IH]; intros Hs; cbn [insert_desc].
  - by repeat constructor.
  - apply StronglySorted_cons in Hs as [Hy Hl].
    destruct (key x <? key y)%N eqn:Hlt.
    + apply N.ltb_lt in Hlt. apply StronglySorted_cons. split; [|by apply IH].
      rewrite insert_desc_perm. constructor; [lia|done].
    + apply N.ltb_ge in Hlt. apply StronglySorted_cons. split.
      * constructor; [done|]. eapply Forall_impl; [exact Hy|]. cbn. intros z Hz. lia.
      * by apply StronglySorted_cons.
Qed.

Lemma sort_desc_by_newest_first (l : list A) : newest_first key (sort_desc_by key l).
Proof.
  unfold sort_desc_by. induction l as [|x l IH]; [constructor|].
  cbn [fold_right]. by apply insert_desc_newest_first.
Qed.
End Sorting.

(** X6: the candidate search returns at most ten documents, newest
    [updatedAt] first; they are matching candidates without their
    [resumeFile], no matching candidate that is left out is newer than one
    that is returned, and none is left out while fewer than ten are
    returned. *)
Theorem search_returns_newest_matches `{Runtime}
  (e : Env) (q : string) (w : World) (found : list Doc) :
  (model_find e Candidate (candidate_search_query q) candidate_search_options w).2
  = inr found ->
  (length found <= 10)%nat
  /\ newest_first (date_key "updatedAt") found
  /\ exists rest,
       List.map (exclude ["resumeFile"])
         (List.filter (matches (candidate_search_query q)) (candidates w))
       ≡ₚ (found ++ rest)%list
       /\ (forall x y, x ∈ found -> y ∈ rest ->
             (date_key "updatedAt" y <= date_key "updatedAt" x)%N)
       /\ ((length found < 10)%nat -> rest = []).
Proof.
  unfold model_find, with_store. destruct (db_up e); [|done].
  destruct (negb (query_valid _)); [done|].
  cbn [snd sort_desc limit select_exclude candidate_search_options docs_of collection
       Candidate].
  set (matching := List.filter _ (candidates w)).
  rewrite <- List.firstn_map.
  rewrite <- (sort_desc_by_map _ (exclude ["resumeFile"]))
    by apply date_key_updatedAt_exclude.
  set (sorted := sort_desc_by _ (List.map _ matching)).
  intros [= <-].
  pose proof (sort_desc_by_newest_first (date_key "updatedAt")
                (List.map (exclude ["resumeFile"]) matching)) as Hsorted.
  fold sorted in Hsorted. unfold newest_first in *.
  rewrite <- (take_drop 10 sorted) in Hsorted.
  split; [rewrite length_take; lia|]. split; [by eapply StronglySorted_app_1_l|].
  exists (drop 10 sorted). split; [|split].
  - rewrite take_drop. unfold sorted. by rewrite sort_desc_by_perm.
  - intros x y Hx Hy. by apply (StronglySorted_app_1_elem_of _ _ _ x y Hsorted).
  - rewrite length_take. intros Hlt. apply drop_ge. lia.
Qed.

Lemma search_returns_newest_matches_witness :
  exists found,
    (@model_find Reference.runtime (Sample.env 5000) Candidate (candidate_search_query "ann")
       candidate_search_options (Sample.resume VNull)).2 = inr found
    /\ length found = 2%nat
    /\ newest_first (date_key "updatedAt") found.
Proof.
  destruct (@model_find Reference.runtime (Sample.env 5000) Candidate
              (candidate_search_query "ann") candidate_search_options
              (Sample.resume VNull)).2 as [err|found] eqn:Hfind.
  - vm_compute in Hfind. discriminate Hfind.
  - exists found. split; [reflexivity|].
    destruct (@search_returns_newest_matches Reference.runtime _ _ _ _ Hfind)
      as (_ & Hsorted & _).
    split; [|exact Hsorted].
    vm_compute in Hfind. injection Hfind as <-. reflexivity.
Defined.

(** ** Store consistency *)

Section StoreInvariant.
Context `{Runtime}.

Lemma find_by_id_None_not_elem id (l : list Doc) :
  find_by_id id l = None -> oid id ∉ omap doc_oid l.
Proof.
  unfold find_by_id. induction l as [|x l IH]; [intros _; apply not_elem_of_nil|].
  cbn [List.find]. destruct (has_id id x) eqn:Hx; [done|]. intros Hl.
  change (omap doc_oid (x :: l))
    with (match doc_oid x with
          | Some y => y :: omap doc_oid l
          | None => omap doc_oid l
          end).
  unfold has_id, same_id in Hx. unfold doc_oid at 1.
  destruct (str_at "_id" x) as [s|]; cbn [fmap option_fmap option_map]; [|by apply IH].
  apply not_elem_of_cons. split; [|by apply IH].
  intros Heq. rewrite Heq, String.eqb_refl in Hx. discriminate Hx.
Qed.

Lemma omap_replace_by_id {B} (f : Doc -> option B) id (d d' : Doc) (l : list Doc) :
  find_by_id id l = Some d -> f d' = f d ->
  omap f (replace_by_id id d' l) = omap f l.
Proof.
  unfold find_by_id. intros Hfind Hf. induction l as [|x l IH]; [done|].
  cbn [List.find replace_by_id] in *. destruct (has_id id x).
  - injection Hfind as ->.
    change (omap f (d' :: l)) with (match f d' with Some y => y :: omap f l | None => omap f l end).
    change (omap f (d :: l)) with (match f d with Some y => y :: omap f l | None => omap f l end).
    by rewrite Hf.
  - change (omap f (x :: replace_by_id id d' l))
      with (match f x with
            | Some y => y :: omap f (replace_by_id id d' l)
            | None => omap f (replace_by_id id d' l)
            end).
    change (omap f (x :: l)) with (match f x with Some y => y :: omap f l | None => omap f l end).
    by rewrite IH.
Qed.

Lemma inc_path_str_at k amount (d d' : Doc) k' :
  inc_path k amount d = Some d' -> str_at k' d' = str_at k' d.
Proof.
  unfold inc_path, str_at. destruct (d !! k) as [[]|] eqn:Hk; try done;
    intros [= <-]; (destruct (decide (k = k')) as [<-|Hne];
      [by rewrite lookup_insert_eq, Hk|by rewrite lookup_insert_ne]).
Qed.

Lemma inc_path_doc_oid k amount (d d' : Doc) :
  inc_path k amount d = Some d' -> doc_oid d' = doc_oid d.
Proof. intros Hinc. unfold doc_oid. by rewrite (inc_path_str_at k amount d d' "_id" Hinc). Qed.

Lemma unique_by_snoc (f : Doc -> option string) (l : list Doc) (doc : Doc) :
  unique_by f l ->
  (forall a, f doc = Some a -> a ∉ omap f l) ->
  unique_by f (l ++ [doc])%list.
Proof.
  unfold unique_by. intros Hl Hfresh. rewrite omap_app.
  change (omap f [doc]) with (match f doc with Some y => [y] | None => [] end).
  destruct (f doc) as [a|]; [|by rewrite app_nil_r].
  apply NoDup_app. split; [done|]. split; [|apply NoDup_singleton].
  intros x Hx Hy. apply list_elem_of_singleton in Hy as ->. by apply (Hfresh a).
Qed.

Lemma duplicate_key_false (m : Model) (doc : Doc) (existing : list Doc) (d : PathDecl) a :
  duplicate_key m doc existing = false ->
  In d (schema m) -> unique d = true ->
  str_at (path_key (path d)) doc = Some a ->
  a ∉ omap (str_at (path_key (path d))) existing.
Proof.
  unfold duplicate_key. intros Hdup Hd Hu Ha Hin.
  apply list_elem_of_omap in Hin as (other & Hother & Hsame).
  apply not_true_iff_false in Hdup. apply Hdup. apply existsb_exists. exists d.
  split; [done|]. rewrite Hu. cbn [andb]. apply existsb_exists. exists other.
  split; [by apply list_elem_of_In|]. rewrite Ha, Hsame. apply String.eqb_refl.
Qed.

Lemma saved_doc_id (m : Model) t id (doc0 : Doc) :
  str_at "_id" (pre_save m t (<["_id" := VStr id]> (<["__v" := VNum 0]> doc0))) = Some id.
Proof.
  unfold pre_save, str_at. destruct (pre_save_sets_updatedAt m).
  - by rewrite lookup_insert_ne, lookup_insert_eq.
  - by rewrite lookup_insert_eq.
Qed.

Lemma model_save_store_ok e (m : Model) init (w : World) :
  app_model m -> store_ok w -> store_ok (model_save e m init w).1.
Proof.
  intros Hm Hw. unfold model_save.
  destruct (validate_paths _ _ _) as [|doc0]; [done|].
  destruct (negb (db_up e)); [done|].
  destruct (_ || _) eqn:Hdup; [done|]. apply orb_false_iff in Hdup as [Hdup Hfresh].
  apply bool_decide_eq_false in Hfresh.
  assert (Hnone : find_by_id (new_id e) (docs_of (collection m) w) = None).
  { destruct (find_by_id _ _); [|done]. destruct Hfresh. eauto. }
  set (doc := pre_save m (now e) _) in *.
  assert (Hid : forall a, doc_oid doc = Some a ->
                          a ∉ omap doc_oid (docs_of (collection m) w)).
  { intros a. unfold doc, doc_oid at 1. rewrite saved_doc_id. intros [= <-].
    by apply find_by_id_None_not_elem. }
  destruct Hw as (Hj & Hc & Hh & He). cbn [fst].
  destruct Hm as [-> | [-> | ->]]; cbn [collection Job Candidate Hotlist docs_of set_docs] in *;
    unfold store_ok; cbn [jobs candidates hotlists].
  - split; [by apply unique_by_snoc|done].
  - split; [done|]. split; [by apply unique_by_snoc|]. split; [done|].
    apply unique_by_snoc; [done|]. intros a Ha.
    apply (duplicate_key_false (mkModel Candidates candidateSchema true) doc (candidates w)
             (mkPath ["email"] TString true NoDefault None true) a Hdup);
      [cbn; tauto|done|exact Ha].
  - split; [done|]. split; [done|]. split; [by apply unique_by_snoc|done].
Qed.

Lemma set_docs_store_ok c (l : list Doc) (w : World) :
  omap doc_oid l = omap doc_oid (docs_of c w) ->
  omap (str_at "email") l = omap (str_at "email") (docs_of c w) ->
  store_ok w -> store_ok (set_docs c l w).
Proof.
  intros Hids Hemails (Hj & Hc & Hh & He). unfold store_ok, unique_by in *.
  destruct c; cbn [set_docs docs_of jobs candidates hotlists] in *;
    rewrite ?Hids, ?Hemails; done.
Qed.

Lemma exec_store_ok e {X} (op : Op X) (w : World) :
  op_ok op -> store_ok w -> store_ok (exec e op w).1.
Proof.
  intros Hop Hw. destruct op; cbn [exec op_ok] in *.
  - by apply model_save_store_ok.
  - unfold model_findById, with_id, with_store. by repeat case_match.
  - unfold model_findById_populate, with_id, with_store. by repeat case_match.
  - unfold model_findByIdAndUpdate_inc, with_id, with_store.
    destruct (objectid_valid id); [|done]. destruct (db_up e); [|done].
    destruct (find_by_id id _) as [d|] eqn:Hfind; [|done].
    destruct (inc_path k amount d) as [d'|] eqn:Hinc; [|done]. cbn [fst].
    apply set_docs_store_ok; [| |done].
    + apply (omap_replace_by_id _ id d d'); [done|]. by apply (inc_path_doc_oid k amount).
    + apply (omap_replace_by_id _ id d d'); [done|]. by apply (inc_path_str_at k amount).
  - unfold model_find, with_store. by repeat case_match.
  - unfold Upload.single. by repeat case_match.
  - unfold Upload.unlink. by case_match.
Qed.

Lemma app_request_ok (p : Prog Response) : app_request p -> prog_ok p.
Proof.
  intros []; unfold get_job, apply_job, post_jobs, get_candidates, search_candidates,
    get_candidate, post_candidate, post_candidate_with_resume, candidate_with_resume,
    get_hotlist, post_hotlists;
    repeat first
      [ apply ok_Ret
      | apply ok_Await; [cbn [op_ok]; unfold app_model; tauto | intros ?]
      | progress case_match ].
Qed.

Lemma step_store_ok (s s' : World * list (Prog Response)) :
  store_ok s.1 /\ Forall prog_ok s.2 -> step s s' -> store_ok s'.1 /\ Forall prog_ok s'.2.
Proof.
  intros [Hw Hpool] Hstep. inversion Hstep as [e i p w pool Hi Hwaiting]; subst s s'.
  cbn [fst snd] in *. pose proof (Forall_lookup_1 _ _ _ _ Hpool Hi) as Hp.
  destruct Hp as [r|X op k Hop Hk]; cbn [advance fst snd].
  - split; [done|]. apply Forall_insert; [done|constructor].
  - split; [by apply exec_store_ok|]. by apply Forall_insert.
Qed.

Lemma steps_store_ok (s s' : World * list (Prog Response)) :
  rtc step s s' -> store_ok s.1 /\ Forall prog_ok s.2 -> store_ok s'.1 /\ Forall prog_ok s'.2.
Proof. induction 1 as [|s1 s2 s3 Hstep _ IH]; [done|]. intros Hinv. by apply IH, (step_store_ok s1). Qed.
End StoreInvariant.

(** X7: whatever requests are served, in whatever interleaving of their
    operations, ObjectIds stay unique within each collection and no two
    stored candidates share an email. *)
Theorem store_stays_consistent `{Runtime}
  (w w' : World) (pool pool' : list (Prog Response)) :
  store_ok w ->
  Forall app_request pool ->
  rtc step (w, pool) (w', pool') ->
  store_ok w'.
Proof.
  intros Hw Hpool Hsteps.
  apply (steps_store_ok (w, pool) (w', pool') Hsteps).
  split; [done|]. eapply Forall_impl; [exact Hpool|]. apply app_request_ok.
Qed.

(** ** Saved documents *)

Section SavedDocuments.
Context `{Runtime}.

Lemma validate_paths_lookup t init (ds : list PathDecl) (doc : Doc) (d : PathDecl) :
  NoDup (List.map decl_key ds) ->
  validate_paths t init ds = inr doc ->
  In d ds ->
  validate_path t init d = inr (doc !! decl_key d).
Proof.
  revert doc. induction ds as [|d0 ds IH]; intros doc Hnd; [done|].
  cbn [List.map] in Hnd. apply NoDup_cons in Hnd as [Hd0 Hnd].
  cbn [validate_paths]. destruct (validate_path t init d0) as [|ov] eqn:Hv0; [done|].
  destruct (validate_paths t init ds) as [|doc'] eqn:Hvs; [done|].
  intros [= <-] [<-|Hin].
  - rewrite Hv0. f_equal. fold (decl_key d0). destruct ov as [v|].
    + by rewrite lookup_insert_eq.
    + symmetry. apply (validate_paths_lookup_None _ _ _ _ _ Hvs).
      by rewrite <- list_elem_of_In.
  - rewrite (IH doc' Hnd eq_refl Hin). f_equal. fold (decl_key d0).
    destruct ov as [v|]; [|done]. rewrite lookup_insert_ne; [done|].
    intros Heq. apply Hd0. rewrite Heq. apply list_elem_of_In, in_map_iff. eauto.
Qed.

Lemma validate_path_required t init (d : PathDecl) ov :
  validate_path t init d = inr ov -> required d = true -> exists v, ov = Some v /\ present v.
Proof.
  unfold validate_path, present. intros Hv Hreq. rewrite Hreq in Hv.
  destruct (apply_default _ _ _) as [| |b|n| |s|dt|items|fields] eqn:Hval; try done;
    (destruct (schema_cast _ _) as [v'|]; [|done]);
    (destruct (negb (required_ok d v')) eqn:Hok; [done|]);
    (destruct (enum_ok _ _); [|done]); injection Hv as <-; exists v';
    (split; [done|]); apply negb_false_iff in Hok; unfold required_ok in Hok;
    rewrite Hreq in Hok; destruct v' as [| | | | |[|]| | |]; done.
Qed.

Lemma validate_path_enum t init (d : PathDecl) (values : list string) (s : string) :
  validate_path t init d = inr (Some (VStr s)) -> enum d = Some values -> In s values.
Proof.
  unfold validate_path. intros Hv He. rewrite He in Hv.
  assert (Henum : enum_ok (Some values) (VStr s) = true -> In s values).
  { cbn. intros (x & Hx & ->%String.eqb_eq)%existsb_exists. done. }
  destruct (apply_default _ _ _) as [| |b|n| |s0|dt|items|fields]; try (by case_match);
    (destruct (schema_cast _ _) as [v'|]; [|done]);
    (destruct (negb (required_ok d v')); [done|]);
    (destruct (enum_ok _ v') eqn:Hok; [|done]); injection Hv as ->; by apply Henum.
Qed.

Lemma schema_ok_app_model (m : Model) : app_model m -> schema_ok (schema m) = true.
Proof. intros [-> | [-> | ->]]; vm_compute; reflexivity. Qed.
End SavedDocuments.

(** X8: every document stored by a create route has each required path of
    its schema set to a value that is neither null nor the empty string, and
    each enumerated path that holds a string holds one of the listed values. *)
Theorem saved_document_satisfies_schema `{Runtime}
  (e : Env) (m : Model) (init : jsval) (w w' : World) (doc : Doc) (d : PathDecl) :
  app_model m ->
  model_save e m init w = (w', inr doc) ->
  In d (schema m) ->
  (required d = true -> exists v, doc !! decl_key d = Some v /\ present v)
  /\ (forall values s,
        enum d = Some values -> doc !! decl_key d = Some (VStr s) -> In s values).
Proof.
  intros Hm Hsave Hd.
  destruct (model_save_inr _ _ _ _ _ _ Hsave) as (doc0 & Hvalid & -> & _).
  pose proof (schema_ok_app_model m Hm) as Hok. unfold schema_ok in Hok.
  apply andb_true_iff in Hok as [Hnd Hall]. apply bool_decide_eq_true in Hnd.
  rewrite forallb_forall in Hall. specialize (Hall d Hd).
  apply andb_true_iff in Hall as [[Hid Hv]%andb_true_iff Hup].
  apply negb_true_iff, String.eqb_neq in Hid, Hv.
  pose proof (validate_paths_lookup _ _ _ _ d Hnd Hvalid Hd) as Hpath.
  destruct (String.eqb (decl_key d) "updatedAt") eqn:Hkey.
  - cbn [negb orb] in Hup. apply andb_true_iff in Hup as [Hreq Henum].
    apply negb_true_iff in Hreq. split; [by rewrite Hreq|].
    intros values s He. by rewrite He in Henum.
  - apply String.eqb_neq in Hkey.
    assert (Hsame : pre_save m (now e) (<["_id" := VStr (new_id e)]> (<["__v" := VNum 0]> doc0))
                      !! decl_key d = doc0 !! decl_key d).
    { unfold pre_save. destruct (pre_save_sets_updatedAt m);
        by rewrite ?lookup_insert_ne by done. }
    rewrite Hsame. split.
    + intros Hreq. destruct (validate_path_required _ _ _ _ Hpath Hreq) as (v & Hv' & Hp).
      exists v. by rewrite Hv'.
    + intros values s He Hs. rewrite Hs in Hpath. by apply (validate_path_enum _ _ _ _ _ Hpath).
Qed.

Lemma saved_document_satisfies_schema_witness :
  exists w' doc,
    @model_save Reference.runtime (Sample.env 5000) Job Sample.job_init Sample.empty
    = (w', inr doc)
    /\ (exists v, doc !! "jobType" = Some v /\ present v)
    /\ (forall s, doc !! "jobType" = Some (VStr s) ->
                  In s ["Full-time"; "Part-time"; "Contract"; "Freelance"]).
Proof.
  destruct (@model_save Reference.runtime (Sample.env 5000) Job Sample.job_init Sample.empty)
    as [w' [err|doc]] eqn:Hsave.
  - vm_compute in Hsave. discriminate Hsave.
  - exists w', doc. split; [reflexivity|].
    destruct (@saved_document_satisfies_schema Reference.runtime _ Job _ _ _ doc
                (mkPath ["jobType"] TString true NoDefault
                   (Some ["Full-time"; "Part-time"; "Contract"; "Freelance"]) false)
                (or_introl eq_refl) Hsave) as [Hreq Henum].
    + cbn. tauto.
    + split; [by apply Hreq|]. intros s. by apply Henum.
Defined.

(** ** The create routes *)

Section Creating.
Context `{Runtime}.

Lemma model_save_outcome e (m : Model) init (w : World) :
  (exists err, model_save e m init w = (w, inl err))
  \/ (exists doc,
        model_save e m init w
        = (set_docs (collection m) (docs_of (collection m) w ++ [doc])%list w, inr doc)
        /\ str_at "_id" doc = Some (new_id e)).
Proof.
  unfold model_save. destruct (validate_paths _ _ _) as [err|doc0]; [eauto|].
  destruct (negb (db_up e)); [eauto|]. destruct (_ || _); [eauto|].
  right. eexists. split; [reflexivity|]. apply saved_doc_id.
Qed.

Lemma save_handler_outcome envs (m : Model) init (w : World) :
  created_or_refused (collection m) (new_id (envs 0%nat)) w
    (run envs
       (Await (Model_save m init)
          (fun r => Ret match r with
                        | inr doc => mkResponse 201 (doc_json doc)
                        | inl err => message_only 400 (err_message err)
                        end)) w).
Proof.
  cbn [run exec]. destruct (model_save_outcome (envs 0%nat) m init w) as [[err ->]|(doc & -> & Hid)].
  - by right.
  - left. by exists doc.
Qed.

Lemma body_get_insert_ne (body : gmap string jsval) k v k' :
  k <> k' -> body_get (<[k := v]> body) k' = body_get body k'.
Proof. intros Hne. unfold body_get. by rewrite lookup_insert_ne. Qed.

Lemma find_by_id_snoc id (l : list Doc) (doc : Doc) :
  find_by_id id l = None -> has_id id doc = true -> find_by_id id (l ++ [doc]) = Some doc.
Proof.
  unfold find_by_id. intros Hnone Hid. induction l as [|x l IH]; cbn [app List.find] in *.
  - by rewrite Hid.
  - destruct (has_id id x); [done|]. by apply IH.
Qed.
End Creating.

(** X9: each create route either appends exactly one document to its own
    collection, under the generated identifier, and answers 201 with that
    document, or answers 400 and leaves the store and the uploads as they
    were. *)
Theorem create_is_all_or_nothing `{Runtime}
  (envs : nat -> Env) (body : gmap string jsval) (w : World) :
  created_or_refused Jobs (new_id (envs 0%nat)) w (run envs (post_jobs body) w)
  /\ created_or_refused Candidates (new_id (envs 0%nat)) w (run envs (post_candidate body) w)
  /\ created_or_refused Hotlists (new_id (envs 0%nat)) w (run envs (post_hotlists body) w)
  /\ created_or_refused Candidates (new_id (envs 0%nat)) w
       (run envs (candidate_with_resume body None) w).
Proof.
  split; [|split; [|split]].
  - unfold post_jobs. case_match; [by right|]. apply (save_handler_outcome envs Job).
  - apply (save_handler_outcome envs Candidate).
  - apply (save_handler_outcome envs Hotlist).
  - unfold candidate_with_resume. cbn [run exec].
    destruct (model_save_outcome (envs 0%nat) Candidate (candidate_init body None) w)
      as [[err ->]|(doc & -> & Hid)].
    + by right.
    + left. by exists doc.
Qed.

(** X10: a body field that a create route does not hand to its model has no
    effect on the request; a client cannot set, for instance, [views],
    [applications], [postedDate], [updatedAt] or [_id]. *)
Theorem unread_body_field_is_ignored `{Runtime}
  (k : string) (v : jsval) (body : gmap string jsval) :
  (k ∉ post_jobs_fields -> post_jobs (<[k := v]> body) = post_jobs body)
  /\ (k ∉ post_candidate_fields -> post_candidate (<[k := v]> body) = post_candidate body)
  /\ (k ∉ post_hotlists_fields -> post_hotlists (<[k := v]> body) = post_hotlists body)
  /\ (k ∉ with_resume_fields ->
      forall file, candidate_with_resume (<[k := v]> body) file
                   = candidate_with_resume body file).
Proof.
  unfold post_jobs_fields, post_candidate_fields, post_hotlists_fields, with_resume_fields.
  rewrite !not_elem_of_cons. repeat split.
  - intros (?&?&?&?&?&?&?&?&?&?&?&?&?&?&?&_). unfold post_jobs.
    by rewrite !body_get_insert_ne.
  - intros (?&?&?&?&_). unfold post_candidate. by rewrite !body_get_insert_ne.
  - intros (?&?&?&_). unfold post_hotlists. by rewrite !body_get_insert_ne.
  - intros (?&?&?&?&?&?&?&?&_) file. unfold candidate_with_resume, candidate_init.
    by rewrite !body_get_insert_ne.
Qed.

Lemma unread_body_field_is_ignored_witness :
  @post_jobs Reference.runtime (<["views" := VNum 999]> Sample.no_benefits)
  = @post_jobs Reference.runtime Sample.no_benefits.
Proof.
  apply (@unread_body_field_is_ignored Reference.runtime "views" (VNum 999) Sample.no_benefits).
  unfold post_jobs_fields. rewrite !not_elem_of_cons.
  repeat split; try discriminate. apply not_elem_of_nil.
Defined.

(** X11: a candidate that POST /candidate has stored is returned by
    GET /candidates/:id under its generated identifier, with the same body as
    the creation response, when that identifier is a valid ObjectId and the
    store is reachable. *)
Theorem created_candidate_can_be_fetched `{Runtime}
  (envs envs' : nat -> Env) (form : gmap string jsval) (w : World) :
  status (run envs (post_candidate form) w).2 = 201%N ->
  objectid_valid (new_id (envs 0%nat)) = true ->
  db_up (envs' 0%nat) = true ->
  run envs' (get_candidate (new_id (envs 0%nat))) (run envs (post_candidate form) w).1
  = ((run envs (post_candidate form) w).1,
     mkResponse 200 (body (run envs (post_candidate form) w).2)).
Proof.
  intros Hstatus Hvalid Hup.
  assert (Hfresh : forall doc,
            (model_save (envs 0%nat) Candidate
               (VObj [("name", body_get form "name"); ("email", body_get form "email");
                      ("skills", body_get form "skills");
                      ("experience", body_get form "experience")]) w).2 = inr doc ->
            find_by_id (new_id (envs 0%nat)) (candidates w) = None).
  { intros doc. unfold model_save. destruct (validate_paths _ _ _); [done|].
    destruct (negb _); [done|]. destruct (duplicate_key _ _ _); [done|].
    cbn [orb docs_of collection Candidate].
    destruct (find_by_id _ _) eqn:Hf; [|done]. rewrite bool_decide_eq_true_2; [done|eauto]. }
  revert Hstatus Hfresh. unfold post_candidate. cbn [run exec].
  destruct (model_save_outcome (envs 0%nat) Candidate
              (VObj [("name", body_get form "name"); ("email", body_get form "email");
                     ("skills", body_get form "skills");
                     ("experience", body_get form "experience")]) w)
    as [[err ->]|(doc & -> & Hid)]; cbn [fst snd status]; [done|].
  intros _ Hfresh. unfold get_candidate. cbn [run exec].
  unfold model_findById, with_id, with_store. rewrite Hvalid, Hup.
  cbn [fst snd docs_of set_docs collection Candidate candidates].
  rewrite (find_by_id_snoc _ _ doc); [done|by apply (Hfresh doc)|].
  unfold has_id. rewrite Hid. apply String.eqb_refl.
Qed.

Lemma created_candidate_can_be_fetched_witness :
  status (snd (Sample.handle
                 (get_candidate "65f000000000000000000001")
                 (fst (Sample.handle (post_candidate (More.signup "Ann" "ann@example.com"))
                         Sample.empty)))) = 200%N.
Proof.
  unfold Sample.handle.
  change "65f000000000000000000001" with (new_id (Sample.envs 0%nat)).
  rewrite (@created_candidate_can_be_fetched Reference.runtime Sample.envs Sample.envs
             (More.signup "Ann" "ann@example.com") Sample.empty).
  - reflexivity.
  - vm_compute. reflexivity.
  - vm_compute. reflexivity.
  - reflexivity.
Defined.

Lemma store_stays_consistent_witness :
  store_ok (fst More.two_signups) /\ length (candidates (fst More.two_signups)) = 1%nat.
Proof.
  split; [|vm_compute; reflexivity].
  apply (@store_stays_consistent Reference.runtime Sample.empty (fst More.two_signups)
           [post_candidate (More.signup "Ann" "ann@example.com");
            post_candidate (More.signup "Anna" "ann@example.com")]
           (snd More.two_signups)).
  - repeat split; apply NoDup_nil_2.
  - repeat constructor.
  - rewrite <- surjective_pairing. apply (@schedule_steps Reference.runtime).
Defined.

(** ** What a detail fetch changes *)

Section DetailFetch.
Context `{Runtime}.

Lemma findByIdAndUpdate_inc_outcome e (m : Model) (id k : string) select (w : World) :
  let out := model_findByIdAndUpdate_inc e m id k 1 select w in
  (exists err, out = (w, inl err))
  \/ out = (w, inr None)
  \/ (exists d d',
        find_by_id id (docs_of (collection m) w) = Some d
        /\ inc_path k 1 d = Some d'
        /\ out = (set_docs (collection m) (replace_by_id id d' (docs_of (collection m) w)) w,
                  inr (Some (exclude select d')))).
Proof.
  unfold model_findByIdAndUpdate_inc, with_id, with_store.
  destruct (objectid_valid id); [|eauto]. destruct (db_up e); [|eauto].
  destruct (find_by_id id _) as [d|]; [|eauto].
  destruct (inc_path k 1 d) as [d'|] eqn:Hinc; [|eauto].
  right. right. by exists d, d'.
Qed.

Lemma has_id_same id id' (x : Doc) : same_id id' id = true -> has_id id' x = has_id id x.
Proof.
  unfold has_id, same_id. intros Heq%String.eqb_eq.
  destruct (str_at "_id" x) as [s|]; [|done]. by rewrite Heq.
Qed.

Lemma find_by_id_same id id' (l : list Doc) :
  same_id id' id = true -> find_by_id id' l = find_by_id id l.
Proof.
  intros Hsame. unfold find_by_id. induction l as [|x l IH]; [done|].
  cbn [List.find]. by rewrite (has_id_same id id' x Hsame), IH.
Qed.

Lemma find_replace_other id id' (d' : Doc) (l : list Doc) :
  has_id id d' = true -> same_id id' id = false ->
  find_by_id id' (replace_by_id id d' l) = find_by_id id' l.
Proof.
  unfold find_by_id. intros Hid Hne.
  assert (Hother : forall x : Doc, has_id id x = true -> has_id id' x = false).
  { intros x. unfold has_id, same_id in *. destruct (str_at "_id" x) as [s|]; [|done].
    intros Heq%String.eqb_eq. rewrite Heq. apply String.eqb_neq.
    apply String.eqb_neq in Hne. congruence. }
  induction l as [|x l IH]; [done|]. cbn [replace_by_id List.find].
  destruct (has_id id x) eqn:Hx; cbn [List.find].
  - by rewrite (Hother d' Hid), (Hother x Hx).
  - by rewrite IH.
Qed.

Lemma inc_path_views (d d' : Doc) :
  inc_path "views" 1 d = Some d' ->
  d' = <["views" := VNum (number_or_zero (d !! "views") + 1)]> d.
Proof.
  unfold inc_path, number_or_zero. destruct (d !! "views") as [[]|]; try done; by intros [= <-].
Qed.
End DetailFetch.

(** X12: a detail fetch changes nothing but the [views] of the job it
    fetches: every other path of every job (a job being another one when
    its ObjectId differs), the candidates, the hotlists and the uploads stay
    as they were, and a fetch that is not answered with 200 changes nothing
    at all. A fetch answered with 200 has raised [views] by
    one (a missing [views] counting as 0) and returns the job as stored after
    the increment, without [__v]. *)
Theorem detail_fetch_changes_only_views `{Runtime}
  (envs : nat -> Env) (id : string) (w : World) :
  let out := run envs (get_job id) w in
  candidates (fst out) = candidates w
  /\ hotlists (fst out) = hotlists w
  /\ uploads (fst out) = uploads w
  /\ (forall id' k, same_id id' id = false \/ k <> "views" ->
        path_of Jobs k id' (fst out) = path_of Jobs k id' w)
  /\ (status (snd out) <> 200%N -> fst out = w)
  /\ (status (snd out) = 200%N ->
      exists job,
        find_by_id id (jobs (fst out)) = Some job
        /\ job !! "views" = Some (VNum (number_or_zero (path_of Jobs "views" id w) + 1))
        /\ body (snd out)
           = VObj [("success", VBool true); ("data", doc_json (exclude ["__v"] job))]).
Proof.
  cbv zeta. unfold get_job. cbn [run exec fst snd].
  destruct (findByIdAndUpdate_inc_outcome (envs 0%nat) Job id "views" ["__v"] w)
    as [[err ->]|[->|(d & d' & Hfind & Hinc & ->)]]; cbn [fst snd].
  - repeat split; try done. unfold failure, failure_detail.
    destruct (String.eqb _ _); cbn [status]; done.
  - repeat split; done.
  - cbn [docs_of collection Job set_docs candidates hotlists uploads jobs] in *.
    pose proof (find_by_id_has_id id _ d Hfind) as Hd.
    pose proof (inc_path_views d d' Hinc) as Hd'.
    assert (Hid : has_id id d' = true).
    { rewrite Hd'. by rewrite has_id_insert_ne. }
    split; [done|]. split; [done|]. split; [done|]. split; [|split; [done|]].
    + intros id' k Hor. unfold path_of. cbn [docs_of jobs].
      destruct (same_id id' id) eqn:Hsame.
      * destruct Hor as [?|Hk]; [done|].
        rewrite !(find_by_id_same id id') by done.
        rewrite (find_replace_by_id id d d') by done. rewrite Hfind, Hd'.
        by rewrite lookup_insert_ne.
      * by rewrite find_replace_other.
    + intros _. exists d'. split; [by apply (find_replace_by_id id d d')|].
      split; [|done]. unfold path_of. cbn [docs_of]. rewrite Hfind, Hd'.
      apply lookup_insert_eq.
Qed.

(** ** The upload and the record as a unit *)

Section Sets.

Lemma remove_added (p : string) (U : gset string) : ({[p]} ∪ U) ∖ {[p]} = U ∖ {[p]}.
Proof. apply set_eq. intros x. rewrite !elem_of_difference, elem_of_union. tauto. Qed.

Lemma remove_absent (p : string) (U : gset string) : p ∉ U -> U ∖ {[p]} = U.
Proof.
  intros Hp. apply set_eq. intros x. rewrite elem_of_difference, elem_of_singleton.
  split; [tauto|]. intros Hx. split; [done|]. by intros ->.
Qed.
End Sets.

(** X13: for an acceptable resume, the request ends in one of two states:
    answered 201, with the file in the uploads directory and one candidate
    appended; or answered 400, with no candidate added and the file's path
    absent from the uploads directory. When the path was free before the
    request, the 400 leaves the store and the uploads exactly as they were;
    when a file already had that path, the cleanup has removed it. *)
Theorem resume_upload_is_atomic `{Runtime}
  (envs : nat -> Env) (form : gmap string jsval) (part : Upload.FilePart) (w : World) :
  Upload.fieldname part = "resumeFile" ->
  storable_resume part = true ->
  let p := Upload.uploadDir +:+ "/" +:+ Upload.storage_filename (now (envs 0%nat)) part in
  let out := run envs (post_candidate_with_resume form (Some part)) w in
  (status (snd out) = 201%N
   /\ uploads (fst out) = {[p]} ∪ uploads w
   /\ exists doc, candidates (fst out) = (candidates w ++ [doc])%list)
  \/ (status (snd out) = 400%N
      /\ uploads (fst out) = uploads w ∖ {[p]}
      /\ candidates (fst out) = candidates w
      /\ (p ∉ uploads w -> fst out = w)).
Proof.
  intros Hfield Hok p out.
  destruct (upload_single_acceptable (envs 0%nat) part w Hfield Hok) as (file & Hsingle & Hpath).
  fold p in Hpath. unfold out, post_candidate_with_resume. cbn [run exec]. rewrite Hsingle.
  cbn [fst snd]. unfold candidate_with_resume. cbn [run exec]. rewrite Hpath.
  destruct (model_save_outcome (envs 1%nat) Candidate (candidate_init form (Some file))
              (set_uploads ({[p]} ∪ uploads w) w)) as [[err ->]|(doc & -> & _)];
    cbn [fst snd run exec].
  - right. unfold Upload.unlink. cbn [uploads set_uploads].
    rewrite bool_decide_eq_true_2 by (apply elem_of_union_l; by apply elem_of_singleton).
    cbn [fst snd status message_only].
    cbn [uploads set_uploads candidates jobs hotlists].
    split; [done|]. split; [apply remove_added|]. split; [done|].
    intros Hfree. rewrite remove_added, remove_absent by done. by destruct w.
  - left. cbn [status]. split; [done|].
    cbn [collection Candidate set_docs docs_of set_uploads uploads candidates].
    split; [done|]. by exists doc.
Qed.

Lemma resume_upload_is_atomic_witness :
  fst (Sample.handle (@post_candidate_with_resume Reference.runtime Sample.no_email
                        (Some Sample.pdf)) Sample.empty) = Sample.empty.
Proof.
  destruct (@resume_upload_is_atomic Reference.runtime Sample.envs Sample.no_email Sample.pdf
              Sample.empty eq_refl eq_refl) as [(Hs & _)|(_ & _ & _ & Hsame)].
  - vm_compute in Hs. discriminate Hs.
  - apply Hsame. apply not_elem_of_empty.
Defined.

(** X14: when strings are stored as they are given, a candidate created
    with an accepted resume references, in [resumeFile.path], a file that is
    in the uploads directory. *)
Theorem stored_resume_is_on_disk `{Runtime}
  (envs : nat -> Env) (form : gmap string jsval) (part : Upload.FilePart) (w : World) :
  (forall s, schema_cast TString (VStr s) = Some (VStr s)) ->
  Upload.fieldname part = "resumeFile" ->
  storable_resume part = true ->
  let out := run envs (post_candidate_with_resume form (Some part)) w in
  status (snd out) = 201%N ->
  exists doc p,
    candidates (fst out) = (candidates w ++ [doc])%list
    /\ doc !! "resumeFile.path" = Some (VStr p)
    /\ p ∈ uploads (fst out).
Proof.
  intros Hcast Hfield Hok out.
  destruct (upload_single_acceptable (envs 0%nat) part w Hfield Hok) as (file & Hsingle & _).
  unfold out, post_candidate_with_resume. cbn [run exec]. rewrite Hsingle.
  cbn [fst snd]. unfold candidate_with_resume. cbn [run exec].
  destruct (model_save (envs 1%nat) Candidate (candidate_init form (Some file))
              (set_uploads ({[Upload.path file]} ∪ uploads w) w)) as [w2 [err|doc]] eqn:Hsave;
    cbn [fst snd run exec status message_only]; [done|]. intros _.
  destruct (model_save_inr _ _ _ _ _ _ Hsave) as (doc0 & Hvalid & Hdoc & ->).
  exists doc, (Upload.path file).
  cbn [collection Candidate set_docs docs_of set_uploads uploads candidates].
  split; [done|]. split; [|apply elem_of_union_l; by apply elem_of_singleton].
  pose proof (schema_ok_app_model Candidate (or_intror (or_introl eq_refl))) as Hschema.
  apply andb_true_iff in Hschema as [Hnd _]. apply bool_decide_eq_true in Hnd.
  pose proof (validate_paths_lookup _ _ _ _ (dflt ["resumeFile"; "path"] TString VNull)
                Hnd Hvalid) as Hpath.
  assert (Hin : In (dflt ["resumeFile"; "path"] TString VNull) (schema Candidate))
    by (cbn; tauto).
  specialize (Hpath Hin).
  assert (Hvp : validate_path (now (envs 1%nat)) (candidate_init form (Some file))
                  (dflt ["resumeFile"; "path"] TString VNull)
                = inr (Some (VStr (Upload.path file)))).
  { unfold validate_path.
    change (js_get_path (candidate_init form (Some file))
              (path (dflt ["resumeFile"; "path"] TString VNull)))
      with (VStr (Upload.path file)).
    cbn [apply_default ptype dflt]. rewrite Hcast. reflexivity. }
  rewrite Hvp in Hpath. injection Hpath as Hpath.
  change (decl_key (dflt ["resumeFile"; "path"] TString VNull)) with "resumeFile.path" in Hpath.
  rewrite Hdoc. cbn [pre_save pre_save_sets_updatedAt Candidate].
  by rewrite !lookup_insert_ne.
Qed.

Lemma stored_resume_is_on_disk_witness :
  exists doc p,
    candidates (fst (Sample.handle
                       (@post_candidate_with_resume Reference.runtime
                          (More.signup "Ann" "ann@example.com") (Some Sample.pdf))
                       Sample.empty)) = [doc]
    /\ doc !! "resumeFile.path" = Some (VStr p)
    /\ p ∈ uploads (fst (Sample.handle
                           (@post_candidate_with_resume Reference.runtime
                              (More.signup "Ann" "ann@example.com") (Some Sample.pdf))
                           Sample.empty)).
Proof.
  apply (@stored_resume_is_on_disk Reference.runtime Sample.envs
           (More.signup "Ann" "ann@example.com") Sample.pdf Sample.empty).
  - reflexivity.
  - reflexivity.
  - reflexivity.
  - vm_compute. reflexivity.
Defined.

(** ** The job listing *)

Section Listing.
Context `{Runtime} `{Paging}.

Lemma concat_pages {A} (l n : nat) (all : list A) :
  (0 < l)%nat -> (length all <= n * l)%nat ->
  concat (List.map (fun i => take l (drop (i * l) all)) (seq 0 n)) = all.
Proof.
  intros Hl. revert all. induction n as [|n IH]; intros all Hlen.
  - cbn in *. destruct all; [done|cbn in Hlen; lia].
  - cbn [seq List.map concat]. rewrite <- seq_shift, List.map_map.
    rewrite Nat.mul_0_l, drop_0.
    rewrite (List.map_ext _ (fun i => take l (drop (i * l) (drop l all)))).
    + rewrite IH; [apply take_drop|]. rewrite length_drop. lia.
    + intros i. rewrite drop_drop. reflexivity.
Qed.

Lemma model_find_all_jobs e (q : Query) (w : World) (all : list Doc) :
  (model_find e Job q (mkFindOptions (Some "postedDate") None ["__v"]) w).2 = inr all ->
  all = all_jobs q w /\ db_up e = true /\ query_valid q = true.
Proof.
  unfold model_find, with_store, all_jobs. destruct (db_up e); [|done].
  destruct (query_valid q); [|done]. cbn. by intros [= <-].
Qed.

Lemma model_find_all_jobs_inr e (q : Query) (w : World) :
  db_up e = true -> query_valid q = true ->
  (model_find e Job q (mkFindOptions (Some "postedDate") None ["__v"]) w).2
  = inr (all_jobs q w).
Proof. intros Hup Hq. unfold model_find, with_store, all_jobs. by rewrite Hup, Hq. Qed.

Lemma jobs_page_in_range e (q : Query) (p l : Z) (w : World) :
  db_up e = true -> query_valid q = true -> (1 <= p)%Z -> (1 <= l)%Z ->
  (p * l <= max_safe_integer)%Z ->
  find_jobs_page e q (JsNumber.skip_of (Some p) (Some l)) (Some l) w
  = inr (take (Z.to_nat l) (drop ((Z.to_nat p - 1) * Z.to_nat l) (all_jobs q w))).
Proof.
  intros Hup Hq Hp Hl Hmax. unfold find_jobs_page. rewrite model_find_all_jobs_inr by done.
  cbn [JsNumber.skip_of].
  assert (Hrange : ((0 <=? (p - 1) * l) && ((p - 1) * l <=? max_safe_integer)
                    && (1 <=? l) && (l <=? max_safe_integer))%Z = true).
  { rewrite !andb_true_iff, !Z.leb_le. nia. }
  rewrite Hrange. do 3 f_equal. nia.
Qed.

Lemma all_jobs_newest_first (q : Query) (w : World) :
  newest_first (date_key "postedDate") (all_jobs q w).
Proof.
  unfold all_jobs.
  rewrite <- (sort_desc_by_map (date_key "postedDate") (exclude ["__v"])).
  - apply sort_desc_by_newest_first.
  - intros d. unfold date_key. by rewrite exclude_lookup.
Qed.

Lemma count_jobs_inr e (q : Query) (w : World) :
  db_up e = true -> query_valid q = true ->
  count_jobs e q w = inr (length (all_jobs q w)).
Proof.
  intros Hup Hq. unfold count_jobs, model_find, with_store, all_jobs. rewrite Hup, Hq.
  cbn [negb snd sort_desc limit select_exclude docs_of collection Job].
  f_equal. rewrite !length_map. apply Permutation_length. symmetry.
  apply sort_desc_by_perm.
Qed.
End Listing.

(** X15: with [limit >= 1] and jobs posted at pairwise different instants
    (the store promises no order between equal sort keys), the pages of the
    job listing partition the matches: pages 1 to [n], taken in order, are
    exactly all matching jobs, newest first, as soon as [n * limit] reaches
    their number, so no job is skipped or repeated; and each of these pages
    has at most [limit] jobs. *)
Theorem job_pages_partition_the_matches `{Runtime} `{Paging}
  (e : Env) (q : Query) (l : Z) (n : nat) (w : World) :
  db_up e = true ->
  query_valid q = true ->
  (1 <= l)%Z ->
  (Z.of_nat n * l <= max_safe_integer)%Z ->
  NoDup (List.map (date_key "postedDate") (List.filter (matches q) (jobs w))) ->
  (Z.of_nat (length (all_jobs q w)) <= Z.of_nat n * l)%Z ->
  concat (List.map (fun i => jobs_page e q (Z.of_nat i) l w) (seq 1 n)) = all_jobs q w
  /\ Forall (fun i => (Z.of_nat (length (jobs_page e q (Z.of_nat i) l w)) <= l)%Z) (seq 1 n)
  /\ newest_first (date_key "postedDate") (all_jobs q w).
Proof.
  intros Hup Hq Hl Hmax _ Hn. split; [|split].
  - rewrite <- seq_shift, List.map_map.
    rewrite (List.map_ext_in _ (fun i => take (Z.to_nat l)
                                           (drop (i * Z.to_nat l) (all_jobs q w)))).
    + apply concat_pages; [lia|nia].
    + intros i Hi%in_seq. unfold jobs_page. rewrite jobs_page_in_range by (done || nia).
      rewrite Nat2Z.id. replace (S i - 1)%nat with i by lia. reflexivity.
  - apply List.Forall_forall. intros i Hi%in_seq. unfold jobs_page.
    rewrite jobs_page_in_range by (done || nia). rewrite length_take. lia.
  - apply all_jobs_newest_first.
Qed.

Lemma job_pages_partition_the_matches_witness :
  concat (List.map (fun i => @jobs_page Reference.runtime More.refusing (More.env 5000 "65f0000000000000000000f1")
                               ∅ (Z.of_nat i) 10 More.many_jobs)
            (seq 1 3))
  = @all_jobs Reference.runtime ∅ More.many_jobs
  /\ length (@all_jobs Reference.runtime ∅ More.many_jobs) = 25%nat
  /\ length (@jobs_page Reference.runtime More.refusing (More.env 5000 "65f0000000000000000000f1")
               ∅ 3 10 More.many_jobs) = 5%nat.
Proof.
  split; [|split; vm_compute; reflexivity].
  apply (@job_pages_partition_the_matches Reference.runtime More.refusing
           (More.env 5000 "65f0000000000000000000f1") ∅ 10 3 More.many_jobs).
  - reflexivity.
  - vm_compute. reflexivity.
  - lia.
  - unfold max_safe_integer. lia.
  - apply (bool_decide_unpack _). vm_compute. reflexivity.
  - vm_compute. discriminate.
Defined.
